(** * Turn-by-turn navigation: the live navigation core of [TurnByTurnNavigation]

    A shallow embedding of the navigation methods of the class
    [TurnByTurnNavigation] (geometry kernel, map matching, step advancement,
    off-route handling, announcements, stop), together with the part of the
    browser event loop they rely on ([setTimeout] / [clearTimeout], the
    geolocation watch callback and the asynchronous route request).

    The position tracker of the class [RoutingDashboard] (the callback of its
    geolocation watch and [updateCurrentPosition]) is embedded as well, in a
    module of its name.

    Numbers.  JavaScript numbers are IEEE doubles; here they are idealised as
    real numbers, so rounding, [NaN] and overflow are outside the model.  The
    one non-finite value the methods create themselves, the literal
    [Infinity] that initialises a running minimum, is kept ([Num]).  Two
    things follow for the geometry.  The haversine formula is here a number
    that is not negative for all points, where the doubles give [NaN] when
    its term [a] is rounded above 1, for points that are nearly antipodal.
    And a projection onto a segment is exact here, where the doubles may
    leave a rounding error of some 1e-13 m at the end of a segment.  Lemmas
    that hold by this idealisation only are marked "over the reals".

    Display.  Writes to DOM elements and to the Leaflet map only change what is
    shown and are left out, except that drawing the route is recorded.  Calls
    of [speakInstruction], [showToast] and the route request are recorded, in
    order, in an effect log. *)

From Stdlib Require Import Reals Lra List String DecimalString Bool Arith Lia.
Import ListNotations.

Local Open Scope R_scope.

(** ** Comparisons of numbers as booleans *)

Definition ltb (x y : R) : bool := if Rlt_dec x y then true else false.
Definition gtb (x y : R) : bool := ltb y x.
Definition neqb (x y : R) : bool := if Req_dec_T x y then false else true.

(** A number that may be the literal [Infinity]. *)
Inductive Num : Type :=
| Fin (r : R)
| Infinity.

(** [x < m] and [m > x] for a finite [x]. *)
Definition lt_Num (x : R) (m : Num) : bool :=
  match m with
  | Fin r => ltb x r
  | Infinity => true
  end.

Definition gt_Num (m : Num) (x : R) : bool := lt_Num x m.

(** ** The [Math] builtins, over the reals *)

Module Math.

Definition PI : R := Rtrigo1.PI.
Definition sin : R -> R := Rtrigo_def.sin.
Definition cos : R -> R := Rtrigo_def.cos.
Definition sqrt : R -> R := R_sqrt.sqrt.

(** [Math.atan2(y, x)]: the angle of the point [(x, y)], in (-PI, PI]. *)
Definition atan2 (y x : R) : R :=
  if Rlt_dec 0 x then atan (y / x)
  else if Rlt_dec x 0 then
    if Rle_dec 0 y then atan (y / x) + PI else atan (y / x) - PI
  else if Rlt_dec 0 y then PI / 2
  else if Rlt_dec y 0 then - (PI / 2)
  else 0.

(** [Math.min(m, x)] where [m] may still be [Infinity]. *)
Definition min (m : Num) (x : R) : Num :=
  match m with
  | Fin r => Fin (Rmin r x)
  | Infinity => Fin x
  end.

End Math.

(** ** Geometry kernel *)

(** Calculate distance between two points (Haversine formula). *)
Definition calculateDistance (lat1 lon1 lat2 lon2 : R) : R :=
  let R := 6371e3 in
  let phi1 := lat1 * Math.PI / 180 in
  let phi2 := lat2 * Math.PI / 180 in
  let dphi := (lat2 - lat1) * Math.PI / 180 in
  let dlambda := (lon2 - lon1) * Math.PI / 180 in
  let a := Math.sin (dphi / 2) * Math.sin (dphi / 2) +
           Math.cos phi1 * Math.cos phi2 *
           Math.sin (dlambda / 2) * Math.sin (dlambda / 2) in
  let c := 2 * Math.atan2 (Math.sqrt a) (Math.sqrt (1 - a)) in
  R * c.

(** Calculate distance from point to line segment. *)
Definition distanceToLineSegment (px py x1 y1 x2 y2 : R) : R :=
  let A := px - x1 in
  let B := py - y1 in
  let C := x2 - x1 in
  let D := y2 - y1 in
  let dot := A * C + B * D in
  let lenSq := C * C + D * D in
  let param := if neqb lenSq 0 then dot / lenSq else -1 in
  let '(xx, yy) :=
    if ltb param 0 then (x1, y1)
    else if gtb param 1 then (x2, y2)
    else (x1 + param * C, y1 + param * D) in
  calculateDistance px py xx yy.

(** A coordinate as the route provider sends it: the array [[lng, lat]]. *)
Definition Coord : Type := (R * R)%type.
Definition lngOf (c : Coord) : R := fst c.   (* c[0] *)
Definition latOf (c : Coord) : R := snd c.   (* c[1] *)

(** The consecutive pairs [(g[i], g[i+1])], for [i] from [0] to [length - 2]. *)
Fixpoint segments (g : list Coord) : list (Coord * Coord) :=
  match g with
  | point1 :: ((point2 :: _) as rest) => (point1, point2) :: segments rest
  | _ => []
  end.

(** Calculate distance to route line, from the position [(lat, lng)]. *)
Definition calculateDistanceToRoute (lat lng : R) (routeGeometry : list Coord) : Num :=
  match routeGeometry with
  | [] => Fin 0
  | _ =>
      fold_left
        (fun minDistance '(point1, point2) =>
           let distance :=
             distanceToLineSegment lat lng
               (latOf point1) (lngOf point1) (latOf point2) (lngOf point2) in
           Math.min minDistance distance)
        (segments routeGeometry) Infinity
  end.

(** The first loop of [calculateDistanceAlongRoute]: the index of the vertex
    closest to the position; [i] is the index of the head of [g]. *)
Fixpoint closestLoop (lat lng : R) (g : list Coord) (i : nat)
    (closestIndex : nat) (minDistance : Num) : nat :=
  match g with
  | [] => closestIndex
  | point :: rest =>
      let distance := calculateDistance lat lng (latOf point) (lngOf point) in
      if lt_Num distance minDistance
      then closestLoop lat lng rest (S i) i (Fin distance)
      else closestLoop lat lng rest (S i) closestIndex minDistance
  end.

Definition segmentLength (s : Coord * Coord) : R :=
  let '(point1, point2) := s in
  calculateDistance (latOf point1) (lngOf point1) (latOf point2) (lngOf point2).

(** Calculate distance traveled along route: the closest vertex, then the
    length of the polyline from its start to that vertex. *)
Definition calculateDistanceAlongRoute (lat lng : R) (routeGeometry : list Coord) : R :=
  let closestIndex := closestLoop lat lng routeGeometry 0 0 Infinity in
  fold_left
    (fun distanceAlongRoute s => distanceAlongRoute + segmentLength s)
    (firstn closestIndex (segments routeGeometry)) 0.

(** ** Data *)

Local Open Scope string_scope.

(** What the geolocation watch hands to [handleLocationUpdate]:
    [position.coords] and [position.timestamp]. *)
Module Geolocation.
Record Position : Type := mkPosition {
  latitude : R;
  longitude : R;
  accuracy : R;
  speed : option R;
  heading : option R;
  timestamp : R
}.
End Geolocation.

(** The object stored in [this.currentPosition]. *)
Record Position : Type := mkPosition {
  lat : R;
  lng : R;
  accuracy : R;
  speed : option R;
  heading : option R;
  timestamp : R
}.

(** What [getLatLng()] of a marker returns. *)
Record LatLng : Type := mkLatLng { markerLat : R; markerLng : R }.

(** The route provider's objects. *)
Module Osrm.
Record Maneuver : Type := mkManeuver {
  type : string;
  modifier : option string;
  exit : option nat;
  location : Coord
}.
Record Step : Type := mkStep {
  distance : R;
  duration : R;
  maneuver : Maneuver;
  name : string
}.
(** A route with its geometry's coordinates and the steps of its leg. *)
Record Route : Type := mkRoute {
  routeDistance : R;
  routeDuration : R;
  geometry : list Coord;
  steps : list Step
}.
End Osrm.

(** An entry of [this.steps]. *)
Record Step : Type := mkStep {
  instruction : string;
  distance : R;
  duration : R;
  maneuver : Osrm.Maneuver;
  name : string;
  distanceFromStart : R;
  location : Coord
}.

(** What a timer runs when it fires. *)
Inductive Callback : Type :=
| CbRecalculate        (* the async arrow function of [handleOffRoute] *)
| CbStopNavigation.    (* [() => this.stopNavigation()] of [arriveAtDestination] *)

Record Timer : Type := mkTimer { tid : nat; due : nat; callback : Callback }.

(** What is said: the template [In ${distanceText}, ${step.instruction}] of
    [updateNavigationUI] (the distance is kept, not its rendering), or a text. *)
Inductive Utterance : Type :=
| Approach (distance : R) (instruction : string)
| Plain (text : string).

Inductive Effect : Type :=
| Speak (u : Utterance)                                       (* speakInstruction *)
| Toast (message kind : string)                               (* showToast *)
| RouteRequest (req : nat) (startLat startLng endLat endLng : R) (* axios.get(url) *)
| DrawRoute (routeGeometry : list Coord).                     (* drawRoute *)

(** The fields of the navigation object that the methods below use, then the
    event loop around it: pending timers (in the order they were set), the
    next timer id, the time in milliseconds, the route requests in flight, the
    next request id and the effect log (latest first). *)
Record World : Type := mkWorld {
  currentPosition : option Position;
  destinationMarker : option LatLng;
  isNavigating : bool;
  steps : list Step;
  currentStepIndex : nat;
  totalDistance : R;
  totalDuration : R;
  remainingDistance : R;
  routeGeometry : list Coord;
  lastSpokenInstruction : option string;
  offRouteThreshold : R;
  recalculationTimeout : option nat;
  timers : list Timer;
  nextTimerId : nat;
  clock : nat;
  inflight : list nat;
  nextRequestId : nat;
  log : list Effect
}.

(** The object after its constructor ran, in a fresh page: timer ids are
    positive, so a stored id is truthy. *)
Definition initial : World :=
  mkWorld None None false [] 0 0 0 0 [] None 50 None [] 1 0 [] 0 [].

(** *** Field updates *)

Definition set_currentPosition (v : option Position) (w : World) : World :=
  mkWorld v (destinationMarker w) (isNavigating w) (steps w)
    (currentStepIndex w) (totalDistance w) (totalDuration w)
    (remainingDistance w) (routeGeometry w) (lastSpokenInstruction w)
    (offRouteThreshold w) (recalculationTimeout w) (timers w) (nextTimerId w)
    (clock w) (inflight w) (nextRequestId w) (log w).

Definition set_destinationMarker (v : option LatLng) (w : World) : World :=
  mkWorld (currentPosition w) v (isNavigating w) (steps w)
    (currentStepIndex w) (totalDistance w) (totalDuration w)
    (remainingDistance w) (routeGeometry w) (lastSpokenInstruction w)
    (offRouteThreshold w) (recalculationTimeout w) (timers w) (nextTimerId w)
    (clock w) (inflight w) (nextRequestId w) (log w).

Definition set_isNavigating (v : bool) (w : World) : World :=
  mkWorld (currentPosition w) (destinationMarker w) v (steps w)
    (currentStepIndex w) (totalDistance w) (totalDuration w)
    (remainingDistance w) (routeGeometry w) (lastSpokenInstruction w)
    (offRouteThreshold w) (recalculationTimeout w) (timers w) (nextTimerId w)
    (clock w) (inflight w) (nextRequestId w) (log w).

Definition set_steps (v : list Step) (w : World) : World :=
  mkWorld (currentPosition w) (destinationMarker w) (isNavigating w) v
    (currentStepIndex w) (totalDistance w) (totalDuration w)
    (remainingDistance w) (routeGeometry w) (lastSpokenInstruction w)
    (offRouteThreshold w) (recalculationTimeout w) (timers w) (nextTimerId w)
    (clock w) (inflight w) (nextRequestId w) (log w).

Definition set_currentStepIndex (v : nat) (w : World) : World :=
  mkWorld (currentPosition w) (destinationMarker w) (isNavigating w) (steps w)
    v (totalDistance w) (totalDuration w) (remainingDistance w)
    (routeGeometry w) (lastSpokenInstruction w) (offRouteThreshold w)
    (recalculationTimeout w) (timers w) (nextTimerId w) (clock w) (inflight w)
    (nextRequestId w) (log w).

Definition set_totalDistance (v : R) (w : World) : World :=
  mkWorld (currentPosition w) (destinationMarker w) (isNavigating w) (steps w)
    (currentStepIndex w) v (totalDuration w) (remainingDistance w)
    (routeGeometry w) (lastSpokenInstruction w) (offRouteThreshold w)
    (recalculationTimeout w) (timers w) (nextTimerId w) (clock w) (inflight w)
    (nextRequestId w) (log w).

Definition set_totalDuration (v : R) (w : World) : World :=
  mkWorld (currentPosition w) (destinationMarker w) (isNavigating w) (steps w)
    (currentStepIndex w) (totalDistance w) v (remainingDistance w)
    (routeGeometry w) (lastSpokenInstruction w) (offRouteThreshold w)
    (recalculationTimeout w) (timers w) (nextTimerId w) (clock w) (inflight w)
    (nextRequestId w) (log w).

Definition set_remainingDistance (v : R) (w : World) : World :=
  mkWorld (currentPosition w) (destinationMarker w) (isNavigating w) (steps w)
    (currentStepIndex w) (totalDistance w) (totalDuration w) v
    (routeGeometry w) (lastSpokenInstruction w) (offRouteThreshold w)
    (recalculationTimeout w) (timers w) (nextTimerId w) (clock w) (inflight w)
    (nextRequestId w) (log w).

Definition set_routeGeometry (v : list Coord) (w : World) : World :=
  mkWorld (currentPosition w) (destinationMarker w) (isNavigating w) (steps w)
    (currentStepIndex w) (totalDistance w) (totalDuration w)
    (remainingDistance w) v (lastSpokenInstruction w) (offRouteThreshold w)
    (recalculationTimeout w) (timers w) (nextTimerId w) (clock w) (inflight w)
    (nextRequestId w) (log w).

Definition set_lastSpokenInstruction (v : option string) (w : World) : World :=
  mkWorld (currentPosition w) (destinationMarker w) (isNavigating w) (steps w)
    (currentStepIndex w) (totalDistance w) (totalDuration w)
    (remainingDistance w) (routeGeometry w) v (offRouteThreshold w)
    (recalculationTimeout w) (timers w) (nextTimerId w) (clock w) (inflight w)
    (nextRequestId w) (log w).

Definition set_recalculationTimeout (v : option nat) (w : World) : World :=
  mkWorld (currentPosition w) (destinationMarker w) (isNavigating w) (steps w)
    (currentStepIndex w) (totalDistance w) (totalDuration w)
    (remainingDistance w) (routeGeometry w) (lastSpokenInstruction w)
    (offRouteThreshold w) v (timers w) (nextTimerId w) (clock w) (inflight w)
    (nextRequestId w) (log w).

Definition set_timers (v : list Timer) (w : World) : World :=
  mkWorld (currentPosition w) (destinationMarker w) (isNavigating w) (steps w)
    (currentStepIndex w) (totalDistance w) (totalDuration w)
    (remainingDistance w) (routeGeometry w) (lastSpokenInstruction w)
    (offRouteThreshold w) (recalculationTimeout w) v (nextTimerId w) (clock w)
    (inflight w) (nextRequestId w) (log w).

Definition set_nextTimerId (v : nat) (w : World) : World :=
  mkWorld (currentPosition w) (destinationMarker w) (isNavigating w) (steps w)
    (currentStepIndex w) (totalDistance w) (totalDuration w)
    (remainingDistance w) (routeGeometry w) (lastSpokenInstruction w)
    (offRouteThreshold w) (recalculationTimeout w) (timers w) v (clock w)
    (inflight w) (nextRequestId w) (log w).

Definition set_clock (v : nat) (w : World) : World :=
  mkWorld (currentPosition w) (destinationMarker w) (isNavigating w) (steps w)
    (currentStepIndex w) (totalDistance w) (totalDuration w)
    (remainingDistance w) (routeGeometry w) (lastSpokenInstruction w)
    (offRouteThreshold w) (recalculationTimeout w) (timers w) (nextTimerId w)
    v (inflight w) (nextRequestId w) (log w).

Definition set_inflight (v : list nat) (w : World) : World :=
  mkWorld (currentPosition w) (destinationMarker w) (isNavigating w) (steps w)
    (currentStepIndex w) (totalDistance w) (totalDuration w)
    (remainingDistance w) (routeGeometry w) (lastSpokenInstruction w)
    (offRouteThreshold w) (recalculationTimeout w) (timers w) (nextTimerId w)
    (clock w) v (nextRequestId w) (log w).

Definition set_nextRequestId (v : nat) (w : World) : World :=
  mkWorld (currentPosition w) (destinationMarker w) (isNavigating w) (steps w)
    (currentStepIndex w) (totalDistance w) (totalDuration w)
    (remainingDistance w) (routeGeometry w) (lastSpokenInstruction w)
    (offRouteThreshold w) (recalculationTimeout w) (timers w) (nextTimerId w)
    (clock w) (inflight w) v (log w).

Definition set_log (v : list Effect) (w : World) : World :=
  mkWorld (currentPosition w) (destinationMarker w) (isNavigating w) (steps w)
    (currentStepIndex w) (totalDistance w) (totalDuration w)
    (remainingDistance w) (routeGeometry w) (lastSpokenInstruction w)
    (offRouteThreshold w) (recalculationTimeout w) (timers w) (nextTimerId w)
    (clock w) (inflight w) (nextRequestId w) v.

(** ** The event loop's services *)

(** [showToast(message, type)] and [speakInstruction(text)]: recorded. *)
Definition emit (e : Effect) (w : World) : World := set_log (e :: log w) w.
Definition showToast (message kind : string) : World -> World := emit (Toast message kind).
Definition speakInstruction (u : Utterance) : World -> World := emit (Speak u).

(** [setTimeout(cb, delay)]: the new timer's id and the world with it pending. *)
Definition setTimeout (cb : Callback) (delay : nat) (w : World) : nat * World :=
  let id := nextTimerId w in
  (id, set_nextTimerId (S id)
         (set_timers (timers w ++ [mkTimer id (clock w + delay) cb]) w)).

(** [clearTimeout(id)]: a timer that fired or was cleared is not there, and
    nothing happens. *)
Definition clearTimeout (id : nat) (w : World) : World :=
  set_timers (filter (fun t => negb (Nat.eqb (tid t) id)) (timers w)) w.

(** ** Route model *)

(** [m || d] for a string that may be missing. *)
Definition orElse (m : option string) (d : string) : string :=
  match m with
  | Some s => if String.eqb s EmptyString then d else s
  | None => d
  end.

(** [${m}] for a string that may be missing. *)
Definition interpolate (m : option string) : string :=
  match m with
  | Some s => s
  | None => "undefined"
  end.

(** [${exit || ''}] for a number that may be missing. *)
Definition exitText (e : option nat) : string :=
  match e with
  | Some (S n) => NilZero.string_of_uint (Nat.to_uint (S n))
  | _ => EmptyString
  end.

(** Format step instruction. *)
Definition formatInstruction (step : Osrm.Step) : string :=
  let type := Osrm.type (Osrm.maneuver step) in
  let modifier := Osrm.modifier (Osrm.maneuver step) in
  let name := Osrm.name step in
  let instruction :=
    if String.eqb type "depart" then "Head " ++ orElse modifier "forward"
    else if String.eqb type "turn" then "Turn " ++ interpolate modifier
    else if String.eqb type "new name" then "Continue"
    else if String.eqb type "arrive" then "You have arrived at your destination"
    else if String.eqb type "merge" then "Merge " ++ orElse modifier EmptyString
    else if String.eqb type "on ramp" then "Take the ramp " ++ orElse modifier EmptyString
    else if String.eqb type "off ramp" then "Take the exit " ++ orElse modifier EmptyString
    else if String.eqb type "fork" then "At the fork, take " ++ interpolate modifier
    else if String.eqb type "roundabout"
      then "At the roundabout, take exit " ++ exitText (Osrm.exit (Osrm.maneuver step))
    else if String.eqb type "continue" then "Continue " ++ orElse modifier "straight"
    else "Continue" in
  if negb (String.eqb name EmptyString) && negb (String.eqb type "arrive")
  then instruction ++ " onto " ++ name
  else instruction.

(** The [forEach] that fills [this.steps], with its running [distanceOffset]. *)
Fixpoint extractSteps (steps : list Osrm.Step) (distanceOffset : R) : list Step :=
  match steps with
  | [] => []
  | step :: rest =>
      {| instruction := formatInstruction step;
         distance := Osrm.distance step;
         duration := Osrm.duration step;
         maneuver := Osrm.maneuver step;
         name := orElse (Some (Osrm.name step)) "Unnamed road";
         distanceFromStart := distanceOffset;
         location := Osrm.location (Osrm.maneuver step) |}
      :: extractSteps rest (distanceOffset + Osrm.distance step)
  end.

(** What [startNavigationWithRoute] and [calculateRoute] store of a route. *)
Definition storeRoute (route : Osrm.Route) (w : World) : World :=
  let w := set_totalDistance (Osrm.routeDistance route) w in
  let w := set_totalDuration (Osrm.routeDuration route) w in
  let w := set_remainingDistance (Osrm.routeDistance route) w in
  let w := set_routeGeometry (Osrm.geometry route) w in
  let w := set_steps (extractSteps (Osrm.steps route) 0) w in
  emit (DrawRoute (routeGeometry w)) w.

(** Set destination. *)
Definition setDestination (lat lng : R) (w : World) : World :=
  set_destinationMarker (Some (mkLatLng lat lng)) w.

(** Confirm and start navigation with selected route. *)
Definition startNavigationWithRoute (selectedRoute : Osrm.Route) (w : World) : World :=
  let w := storeRoute selectedRoute w in
  let w := set_isNavigating true w in
  let w := set_currentStepIndex 0 w in
  let w :=
    match steps w with
    | step0 :: _ => speakInstruction (Plain (instruction step0)) w
    | [] => w
    end in
  showToast "Navigation started!" "success" w.

(** ** Navigation state machine *)

(** Stop navigation. *)
Definition stopNavigation (w : World) : World :=
  let w := set_isNavigating false w in
  let w := set_currentStepIndex 0 w in
  let w := set_lastSpokenInstruction None w in
  let w :=
    match recalculationTimeout w with
    | Some id => set_recalculationTimeout None (clearTimeout id w)
    | None => w
    end in
  let w := set_destinationMarker None w in
  showToast "Navigation stopped" "info" w.

(** Handle arrival at destination. *)
Definition arriveAtDestination (w : World) : World :=
  let w := speakInstruction (Plain "You have arrived at your destination") w in
  let w := showToast "You have arrived!" "success" w in
  snd (setTimeout CbStopNavigation 3000 w).

(** Advance to next navigation step. *)
Definition advanceToNextStep (w : World) : World :=
  let w := set_currentStepIndex (S (currentStepIndex w)) w in
  match nth_error (steps w) (currentStepIndex w) with
  | None => arriveAtDestination w
  | Some nextStep =>
      let w := speakInstruction (Plain (instruction nextStep)) w in
      set_lastSpokenInstruction (Some (instruction nextStep)) w
  end.

(** Handle off-route situation: unless a recalculation is already pending,
    announce it and set the timer that will request the new route. *)
Definition handleOffRoute (w : World) : World :=
  match recalculationTimeout w with
  | Some _ => w
  | None =>
      let w := showToast "Recalculating route..." "warning" w in
      let w := speakInstruction (Plain "Recalculating route") w in
      let '(id, w) := setTimeout CbRecalculate 3000 w in
      set_recalculationTimeout (Some id) w
  end.

(** [step.instruction !== this.lastSpokenInstruction]. *)
Definition differsFromLastSpoken (text : string) (w : World) : bool :=
  match lastSpokenInstruction w with
  | Some spoken => negb (String.eqb text spoken)
  | None => true
  end.

(** Update navigation UI: of its work, the announcement when getting close. *)
Definition updateNavigationUI (distance : R) (step : Step) (w : World) : World :=
  if ltb distance 200 && differsFromLastSpoken (instruction step) w
  then
    let w := speakInstruction (Approach distance (instruction step)) w in
    set_lastSpokenInstruction (Some (instruction step)) w
  else w.

(** Update navigation state. *)
Definition updateNavigation (w : World) : World :=
  match isNavigating w, currentPosition w with
  | true, Some pos =>
      match nth_error (steps w) (currentStepIndex w) with
      | None => arriveAtDestination w
      | Some currentStep =>
          let distanceToStep :=
            calculateDistance (lat pos) (lng pos)
              (latOf (location currentStep)) (lngOf (location currentStep)) in
          let w :=
            set_remainingDistance
              (distanceFromStart currentStep + distance currentStep
               - calculateDistanceAlongRoute (lat pos) (lng pos) (routeGeometry w))
              w in
          let w := updateNavigationUI distanceToStep currentStep w in
          let w := if ltb distanceToStep 20 then advanceToNextStep w else w in
          let distanceToRoute :=
            calculateDistanceToRoute (lat pos) (lng pos) (routeGeometry w) in
          if gt_Num distanceToRoute (offRouteThreshold w)
          then handleOffRoute w
          else w
      end
  | _, _ => w
  end.

(** The object that [handleLocationUpdate] builds from [position.coords] and
    [position.timestamp]. *)
Definition positionOf (position : Geolocation.Position) : Position :=
  {| lat := Geolocation.latitude position;
     lng := Geolocation.longitude position;
     accuracy := Geolocation.accuracy position;
     speed := Geolocation.speed position;
     heading := Geolocation.heading position;
     timestamp := Geolocation.timestamp position |}.

(** Handle location updates. *)
Definition handleLocationUpdate (position : Geolocation.Position) (w : World) : World :=
  let w := set_currentPosition (Some (positionOf position)) w in
  if isNavigating w then updateNavigation w else w.

(** ** Recalculation *)

(** Calculate route using OSRM, up to its [await]: the request is sent. *)
Definition calculateRoute (startLat startLng endLat endLng : R) (w : World) : World :=
  let req := nextRequestId w in
  let w := set_nextRequestId (S req) w in
  let w := set_inflight (req :: inflight w) w in
  emit (RouteRequest req startLat startLng endLat endLng) w.

(** The rest of [calculateRoute], once the provider answered: a route is
    stored and drawn; without one (a network error, a code other than [Ok])
    the method throws, which is [None]. *)
Definition calculateRouteResumes (response : option Osrm.Route) (w : World) : option World :=
  match response with
  | Some route => Some (storeRoute route w)
  | None => None
  end.

(** The rest of the timer's function of [handleOffRoute], after its [await]. *)
Definition recalculationResumes (response : option Osrm.Route) (w : World) : World :=
  let w :=
    match calculateRouteResumes response w with
    | Some w =>
        let w := set_currentStepIndex 0 w in
        let w := set_lastSpokenInstruction None w in
        showToast "Route recalculated" "success" w
    | None => showToast "Failed to recalculate route" "error" w
    end in
  set_recalculationTimeout None w.

(** The timer's function of [handleOffRoute], up to its [await].  Without a
    destination marker [getLatLng] throws outside the [try], and the function
    ends there; without a position the [try] catches the error. *)
Definition recalculationFires (w : World) : World :=
  match destinationMarker w with
  | None => w
  | Some destLatLng =>
      match currentPosition w with
      | Some pos =>
          calculateRoute (lat pos) (lng pos) (markerLat destLatLng) (markerLng destLatLng) w
      | None =>
          set_recalculationTimeout None
            (showToast "Failed to recalculate route" "error" w)
      end
  end.

Definition runCallback (cb : Callback) (w : World) : World :=
  match cb with
  | CbRecalculate => recalculationFires w
  | CbStopNavigation => stopNavigation w
  end.

(** ** Events *)

Inductive Event : Type :=
| LocationUpdate (position : Geolocation.Position)   (* the geolocation watch *)
| TimerFires (id : nat)
| RouteResponse (req : nat) (response : option Osrm.Route)
| StopPressed                                        (* the stop button *)
| DestinationChosen (lat lng : R)
| RouteConfirmed (selectedRoute : Osrm.Route).

Definition pendingTimer (id : nat) (w : World) : option Timer :=
  find (fun t => Nat.eqb (tid t) id) (timers w).

(** One event, handled to completion at time [now].  [None] when the event
    cannot happen then: time does not go back, a timer fires only while it is
    pending and not before it is due (it leaves the queue as it fires), and
    an answer needs its request. *)
Definition step (now : nat) (e : Event) (w : World) : option World :=
  if (now <? clock w)%nat then None
  else
    let w := set_clock now w in
    match e with
    | LocationUpdate position => Some (handleLocationUpdate position w)
    | TimerFires id =>
        match pendingTimer id w with
        | Some t =>
            if (due t <=? now)%nat
            then Some (runCallback (callback t) (clearTimeout id w))
            else None
        | None => None
        end
    | RouteResponse req response =>
        if existsb (Nat.eqb req) (inflight w)
        then Some (recalculationResumes response
                     (set_inflight (filter (fun r => negb (Nat.eqb r req)) (inflight w)) w))
        else None
    | StopPressed => Some (stopNavigation w)
    | DestinationChosen lat lng => Some (setDestination lat lng w)
    | RouteConfirmed selectedRoute => Some (startNavigationWithRoute selectedRoute w)
    end.

Fixpoint run (events : list (nat * Event)) (w : World) : option World :=
  match events with
  | [] => Some w
  | (now, e) :: rest =>
      match step now e w with
      | Some w' => run rest w'
      | None => None
      end
  end.

(** A run of location samples only. *)
Definition locationUpdates (samples : list (nat * Geolocation.Position)) : list (nat * Event) :=
  map (fun '(now, position) => (now, LocationUpdate position)) samples.

(** The times of a run do not go back. *)
Fixpoint ascending (from : nat) (times : list nat) : bool :=
  match times with
  | [] => true
  | now :: rest => (from <=? now)%nat && ascending now rest
  end.

(** Timer ids in the queue are older than the next id. *)
Definition wellFormed (w : World) : Prop :=
  forall t, In t (timers w) -> (tid t < nextTimerId w)%nat.

(** The distance from a sample to a step's maneuver location, as
    [updateNavigation] computes it. *)
Definition distanceToStep (position : Geolocation.Position) (step : Step) : R :=
  calculateDistance (Geolocation.latitude position) (Geolocation.longitude position)
    (latOf (location step)) (lngOf (location step)).

(** Whether a sample is off the route, as [updateNavigation] decides it. *)
Definition offRoute (position : Geolocation.Position) (w : World) : bool :=
  gt_Num
    (calculateDistanceToRoute (Geolocation.latitude position)
       (Geolocation.longitude position) (routeGeometry w))
    (offRouteThreshold w).

(** The announcement of [updateNavigationUI], as opposed to the other texts
    that are spoken. *)
Definition isApproach (e : Effect) : bool :=
  match e with
  | Speak (Approach _ _) => true
  | _ => false
  end.

(** The instruction of the current step, if there is one, is the one last
    spoken. *)
Definition currentIsLastSpoken (w : World) : Prop :=
  forall step,
    nth_error (steps w) (currentStepIndex w) = Some step ->
    lastSpokenInstruction w = Some (instruction step).

(** ** The specification's map matching, for comparison

    [nearestPointOnPolyline] as the specification words it: every consecutive
    segment pair is scanned, the minimum segment distance is kept, and the
    distance along the polyline is the length up to the start of that segment
    plus the offset of the projected point within it. *)

(** The point of the segment closest to [(px, py)], as
    [distanceToLineSegment] finds it. *)
Definition projectOnSegment (px py x1 y1 x2 y2 : R) : R * R :=
  let C := x2 - x1 in
  let D := y2 - y1 in
  let lenSq := C * C + D * D in
  let param := if neqb lenSq 0 then ((px - x1) * C + (py - y1) * D) / lenSq else -1 in
  if ltb param 0 then (x1, y1)
  else if gtb param 1 then (x2, y2)
  else (x1 + param * C, y1 + param * D).

Record Nearest : Type := mkNearest {
  segmentIndex : nat;
  distanceMeters : R;
  distanceAlongPolylineMeters : R
}.

Fixpoint specScan (lat lng : R) (segs : list (Coord * Coord)) (i : nat)
    (lengthBefore : R) (best : option Nearest) : option Nearest :=
  match segs with
  | [] => best
  | (segStart, segEnd) :: rest =>
      let d :=
        distanceToLineSegment lat lng
          (latOf segStart) (lngOf segStart) (latOf segEnd) (lngOf segEnd) in
      let '(footLat, footLng) :=
        projectOnSegment lat lng
          (latOf segStart) (lngOf segStart) (latOf segEnd) (lngOf segEnd) in
      let offset :=
        calculateDistance (latOf segStart) (lngOf segStart) footLat footLng in
      let candidate := mkNearest i d (lengthBefore + offset) in
      let best' :=
        match best with
        | Some b => if ltb d (distanceMeters b) then Some candidate else best
        | None => Some candidate
        end in
      specScan lat lng rest (S i)
        (lengthBefore + segmentLength (segStart, segEnd)) best'
  end.

Definition spec_nearestPointOnPolyline (lat lng : R) (polyline : list Coord) : option Nearest :=
  specScan lat lng (segments polyline) 0 0 None.

(** ** A route and samples for examples

    A road along the equator, from longitude 0 to longitude 0.01 (about
    1112 m), with a turn whose maneuver location lies 0.001 degrees (about
    111 m) north of the middle of the road. *)

Definition road : list Coord := [(0, 0); (0.01, 0)].

Definition equatorRoute : Osrm.Route :=
  {| Osrm.routeDistance := 1112;
     Osrm.routeDuration := 100;
     Osrm.geometry := road;
     Osrm.steps :=
       [ Osrm.mkStep 556 50 (Osrm.mkManeuver "depart" (Some "east") None (0, 0)) "Equator Road";
         Osrm.mkStep 556 50 (Osrm.mkManeuver "turn" (Some "left") None (0.005, 0.001)) "Equator Road";
         Osrm.mkStep 0 0 (Osrm.mkManeuver "arrive" None None (0.01, 0)) "Equator Road" ] |}.

Definition otherRoute : Osrm.Route :=
  {| Osrm.routeDistance := 1112;
     Osrm.routeDuration := 100;
     Osrm.geometry := [(0.02, 0); (0.01, 0)];
     Osrm.steps :=
       [ Osrm.mkStep 1112 100 (Osrm.mkManeuver "depart" (Some "west") None (0.02, 0)) "Equator Road";
         Osrm.mkStep 0 0 (Osrm.mkManeuver "arrive" None None (0.01, 0)) "Equator Road" ] |}.

(** A sample at a latitude and longitude, with an accuracy. *)
Definition sample (lat lng accuracy : R) : Geolocation.Position :=
  Geolocation.mkPosition lat lng accuracy None None 0.

(** The destination chosen and the route confirmed, at time 0. *)
Definition started : World :=
  startNavigationWithRoute equatorRoute (setDestination 0 0.01 initial).

Definition departStep : Step :=
  mkStep "Head east onto Equator Road" 556 50
    (Osrm.mkManeuver "depart" (Some "east") None (0, 0)) "Equator Road" 0 (0, 0).

Definition turnStep : Step :=
  mkStep "Turn left onto Equator Road" 556 50
    (Osrm.mkManeuver "turn" (Some "left") None (0.005, 0.001)) "Equator Road"
    (0 + 556) (0.005, 0.001).

Definition arriveStep : Step :=
  mkStep "You have arrived at your destination" 0 0
    (Osrm.mkManeuver "arrive" None None (0.01, 0)) "Equator Road"
    (0 + 556 + 556) (0.01, 0).

(** The traveler at the start of the road, in the middle of it, at the
    turn's maneuver location, 0.001 degrees north of the road, at the end of
    the road and beyond it. *)
Definition atDeparture : Geolocation.Position := sample 0 0 5.
Definition onRoad : Geolocation.Position := sample 0 0.005 5.
Definition atTurn : Geolocation.Position := sample 0.001 0.005 5.
Definition atRouteEnd : Geolocation.Position := sample 0 0.01 5.
Definition pastRouteEnd : Geolocation.Position := sample 0 0.02 5.
Definition poorFix : Geolocation.Position := sample 0 0.02 500.

(** ** One location update while navigating, in closed form

    Field by field, what [handleLocationUpdate] leaves when navigation is
    active and there is a current step; [handleLocationUpdate_tick] proves
    that the method computes it. *)

Definition arrivalText : string := "You have arrived at your destination".

Definition tick (position : Geolocation.Position) (currentStep : Step) (w : World) : World :=
  let d := distanceToStep position currentStep in
  let announce := ltb d 200 && differsFromLastSpoken (instruction currentStep) w in
  let advance := ltb d 20 in
  let next := nth_error (steps w) (S (currentStepIndex w)) in
  let arrive := advance && match next with None => true | Some _ => false end in
  let recalc :=
    offRoute position w &&
    match recalculationTimeout w with None => true | Some _ => false end in
  let recalcTimerId := if arrive then S (nextTimerId w) else nextTimerId w in
  {| currentPosition := Some (positionOf position);
     destinationMarker := destinationMarker w;
     isNavigating := isNavigating w;
     steps := steps w;
     currentStepIndex :=
       if advance then S (currentStepIndex w) else currentStepIndex w;
     totalDistance := totalDistance w;
     totalDuration := totalDuration w;
     remainingDistance :=
       distanceFromStart currentStep + distance currentStep
       - calculateDistanceAlongRoute (Geolocation.latitude position)
           (Geolocation.longitude position) (routeGeometry w);
     routeGeometry := routeGeometry w;
     lastSpokenInstruction :=
       match (if advance then next else None) with
       | Some nextStep => Some (instruction nextStep)
       | None =>
           if announce then Some (instruction currentStep)
           else lastSpokenInstruction w
       end;
     offRouteThreshold := offRouteThreshold w;
     recalculationTimeout :=
       if recalc then Some recalcTimerId else recalculationTimeout w;
     timers :=
       timers w
       ++ (if arrive
           then [mkTimer (nextTimerId w) (clock w + 3000) CbStopNavigation]
           else [])
       ++ (if recalc
           then [mkTimer recalcTimerId (clock w + 3000) CbRecalculate]
           else []);
     nextTimerId := if recalc then S recalcTimerId else recalcTimerId;
     clock := clock w;
     inflight := inflight w;
     nextRequestId := nextRequestId w;
     log :=
       (if recalc
        then [Speak (Plain "Recalculating route");
              Toast "Recalculating route..." "warning"]
        else [])
       ++ (if advance
           then match next with
                | Some nextStep => [Speak (Plain (instruction nextStep))]
                | None => [Toast "You have arrived!" "success";
                           Speak (Plain arrivalText)]
                end
           else [])
       ++ (if announce
           then [Speak (Approach d (instruction currentStep))]
           else [])
       ++ log w |}.

(** The traveler's first fix after the start, at the start of the road. *)
Definition afterDeparture : World := handleLocationUpdate atDeparture started.

(** A second fix at the start of the road, one second later, no better. *)
Definition jitter : Geolocation.Position := Geolocation.mkPosition 0 0 5 None None 1000.

(** The traveler leaves the road at time 0 and is back on it a second later. *)
Definition leftRoute : World := handleLocationUpdate pastRouteEnd (set_clock 0 started).
Definition rejoined : World := handleLocationUpdate onRoad (set_clock 1000 leftRoute).

(** A recalculation is pending for timer [id], due at [dueTime], and what it
    will need when it fires is there. *)
Definition recalculationPending (id dueTime : nat) (dest : LatLng) (w : World) : Prop :=
  recalculationTimeout w = Some id /\
  pendingTimer id w = Some (mkTimer id dueTime CbRecalculate) /\
  destinationMarker w = Some dest /\
  exists pos, currentPosition w = Some pos.

(** The second fix, at the turn's maneuver location. *)
Definition afterTurn : World := handleLocationUpdate atTurn afterDeparture.

(** A later fix on the road, south of the turn's maneuver location. *)
Definition approachingTurn : World := handleLocationUpdate onRoad afterDeparture.

(** The distance from a position to a segment and to a vertex of the
    geometry, as the two scans compute them. *)
Definition segmentDistance (lat lng : R) (s : Coord * Coord) : R :=
  distanceToLineSegment lat lng
    (latOf (fst s)) (lngOf (fst s)) (latOf (snd s)) (lngOf (snd s)).

Definition vertexDistance (lat lng : R) (v : Coord) : R :=
  calculateDistance lat lng (latOf v) (lngOf v).

(** The length of the polyline from its start to its vertex [k]. *)
Definition lengthToVertex (k : nat) (g : list Coord) : R :=
  fold_left (fun acc s => acc + segmentLength s) (firstn k (segments g)) 0.

(** ** Further definitions for the navigation methods *)

(** Location updates handled one after the other. *)
Definition handleLocationUpdates (positions : list Geolocation.Position) (w : World) : World :=
  fold_left (fun w position => handleLocationUpdate position w) positions w.

(** The value of [distanceOffset] when the [forEach] that fills [this.steps]
    reaches the step of index [k]. *)
Definition distanceOffsetAt (k : nat) (steps : list Osrm.Step) : R :=
  fold_left (fun distanceOffset step => distanceOffset + Osrm.distance step)
    (firstn k steps) 0.

Definition isRecalculationTimer (t : Timer) : bool :=
  match callback t with
  | CbRecalculate => true
  | CbStopNavigation => false
  end.

Definition isArrivalToast (e : Effect) : bool :=
  match e with
  | Toast message kind =>
      String.eqb message "You have arrived!" && String.eqb kind "success"
  | _ => false
  end.

Definition isRecalculatingToast (e : Effect) : bool :=
  match e with
  | Toast message kind =>
      String.eqb message "Recalculating route..." && String.eqb kind "warning"
  | _ => false
  end.

(** The example, further: the recalculation's timer has fired at 3 s and the
    route request is in flight; and, on the other course, the traveler has
    reached the end of the road after the turn, the arrival declared. *)
Definition requested : World :=
  recalculationFires (clearTimeout 1 (set_clock 3000 leftRoute)).

Definition arrived : World := handleLocationUpdate atRouteEnd afterTurn.

(** ** Time ago

    [getTimeAgo(date)] of the reporting page, with the time of the call, both
    in milliseconds since the epoch as a valid [Date] holds them. *)

(** [${n}] for an integer. *)
Definition integerText (n : Z) : string := NilZero.string_of_int (Z.to_int n).

Definition getTimeAgo (now date : Z) : string :=
  let diffMs := (now - date)%Z in
  let diffMins := (diffMs / 60000)%Z in
  let diffHours := (diffMs / 3600000)%Z in
  let diffDays := (diffMs / 86400000)%Z in
  if (diffMins <? 1)%Z then "Just now"
  else if (diffMins <? 60)%Z then integerText diffMins ++ "m ago"
  else if (diffHours <? 24)%Z then integerText diffHours ++ "h ago"
  else integerText diffDays ++ "d ago".

(** ** Weather alerts *)

(** Of the weather provider's answer, what [checkWeatherAlerts] reads:
    [weather[0].id], [rain['1h']] and [visibility] when they are there,
    [wind.speed] and [main.temp]. *)
Module Weather.
Record Report : Type := mkReport {
  id : Z;
  rain1h : option R;
  visibility : option R;
  windSpeed : R;
  temp : R
}.
End Weather.

(** Check for weather alerts and warnings: the array [alerts] that the
    method builds.  It shows [alerts[0]], when there is one. *)
Definition checkWeatherAlerts (weather : Weather.Report) : list string :=
  let id := Weather.id weather in
  let alerts : list string := [] in
  let alerts :=
    if (500 <=? id)%Z && (id <? 600)%Z then
      if match Weather.rain1h weather with
         | Some rain => gtb rain 7.6
         | None => false
         end
      then (alerts ++ ["Heavy rain expected - Drive carefully"])%list
      else (alerts ++ ["Rainy conditions - Reduce speed"])%list
    else alerts in
  let alerts :=
    if (200 <=? id)%Z && (id <? 300)%Z
    then (alerts ++ ["Thunderstorm warning - Consider delaying travel"])%list
    else alerts in
  let alerts :=
    if (600 <=? id)%Z && (id <? 700)%Z
    then (alerts ++ ["Snow conditions - Road may be slippery"])%list
    else alerts in
  let alerts :=
    if match Weather.visibility weather with
       | Some visibility => ltb visibility 1000
       | None => false
       end
    then (alerts ++ ["Poor visibility - Use fog lights"])%list
    else alerts in
  let alerts :=
    if gtb (Weather.windSpeed weather) 10
    then (alerts ++ ["Strong winds - Drive cautiously"])%list
    else alerts in
  if gtb (Weather.temp weather) 40
  then (alerts ++ ["Extreme heat - Stay hydrated"])%list
  else if ltb (Weather.temp weather) 0
  then (alerts ++ ["Freezing temperature - Watch for ice"])%list
  else alerts.

Definition shownWeatherAlert (weather : Weather.Report) : option string :=
  hd_error (checkWeatherAlerts weather).

(** ** Keyboard navigation of the suggestions *)

(** What a method leaves in a field, and whether it threw. *)
Inductive Outcome : Type :=
| Returns (selectedSuggestionIndex : Z)
| Throws (selectedSuggestionIndex : Z).

(** [navigateSuggestions(direction)] on a dropdown of [itemCount] items:
    reading [.style] of an item that is not there throws a [TypeError]. *)
Definition navigateSuggestions (direction : string) (itemCount : Z)
    (selectedSuggestionIndex : Z) : Outcome :=
  let present (i : Z) := ((0 <=? i) && (i <? itemCount))%Z in
  if (itemCount =? 0)%Z then Returns selectedSuggestionIndex
  else if (0 <=? selectedSuggestionIndex)%Z && negb (present selectedSuggestionIndex)
  then Throws selectedSuggestionIndex
  else
    let selectedSuggestionIndex :=
      if String.eqb direction "down"
      then Z.min (selectedSuggestionIndex + 1) (itemCount - 1)
      else Z.max (selectedSuggestionIndex - 1) 0 in
    if present selectedSuggestionIndex
    then Returns selectedSuggestionIndex
    else Throws selectedSuggestionIndex.

(** Keys pressed one after the other, as long as nothing throws. *)
Fixpoint navigateSuggestionsAll (directions : list string) (itemCount : Z)
    (selectedSuggestionIndex : Z) : Outcome :=
  match directions with
  | [] => Returns selectedSuggestionIndex
  | direction :: rest =>
      match navigateSuggestions direction itemCount selectedSuggestionIndex with
      | Returns index => navigateSuggestionsAll rest itemCount index
      | Throws index => Throws index
      end
  end.

(** * The dashboard's position tracker

    The class [RoutingDashboard] keeps a [currentPosition] of its own.
    [startLocationTracking] installs a geolocation watch whose callback passes
    a sample on to [updateCurrentPosition] or skips it.  Other methods of the
    class assign [currentPosition] as well (the one-shot readings of
    [getCurrentLocationForNavigation] and [updateLiveLocation], and
    [setLocationFromAlternative]); they are not embedded, and a dashboard
    below is any state they may have left.  What the methods
    write to the page (texts of the location panel and of the navigation
    display, the console) is left out; what they do to the map is recorded,
    latest first, in [effects]. *)

(** [x <= y] and [x >= y] on numbers. *)
Definition leb (x y : R) : bool := if Rle_dec x y then true else false.
Definition geb (x y : R) : bool := leb y x.

Module RoutingDashboard.

(** Convert degrees to radians. *)
Definition toRadians (degrees : R) : R := degrees * (Math.PI / 180).

(** Calculate distance between two coordinates (Haversine formula).
    Returns distance in kilometers. *)
Definition calculateDistance (lat1 lng1 lat2 lng2 : R) : R :=
  let R := 6371 in
  let dLat := toRadians (lat2 - lat1) in
  let dLng := toRadians (lng2 - lng1) in
  let a := Math.sin (dLat / 2) * Math.sin (dLat / 2) +
           Math.cos (toRadians lat1) * Math.cos (toRadians lat2) *
           Math.sin (dLng / 2) * Math.sin (dLng / 2) in
  let c := 2 * Math.atan2 (Math.sqrt a) (Math.sqrt (1 - a)) in
  R * c.

(** The icon of the marker of the user's location. *)
Inductive Icon : Type :=
| NavigationArrow (rotation : R)
| LocationDot.

Inductive Layer : Type :=
| Marker (lat lng : R) (icon : Icon)
| Circle (lat lng radius : R).

Inductive MapEffect : Type :=
| RemoveLayer (layer : Layer)
| AddLayer (layer : Layer)
| SetView (lat lng zoom : R)
| UpdateNavigationDisplay
| UpdateLocationPanel (position : Position).

(** The fields of the dashboard that the tracker reads or writes, and the
    zoom of the map. *)
Record Dashboard : Type := mkDashboard {
  currentPosition : option Position;
  isNavigating : bool;
  userLocationMarker : option Layer;
  accuracyCircle : option Layer;
  zoom : R;
  effects : list MapEffect
}.

(** As the constructor and the initialisation of the map leave them. *)
Definition initial : Dashboard := mkDashboard None false None None 10 [].

Definition emit (e : MapEffect) (d : Dashboard) : Dashboard :=
  mkDashboard (currentPosition d) (isNavigating d) (userLocationMarker d)
    (accuracyCircle d) (zoom d) (e :: effects d).

Definition set_currentPosition (v : option Position) (d : Dashboard) : Dashboard :=
  mkDashboard v (isNavigating d) (userLocationMarker d) (accuracyCircle d)
    (zoom d) (effects d).

Definition set_userLocationMarker (v : option Layer) (d : Dashboard) : Dashboard :=
  mkDashboard (currentPosition d) (isNavigating d) v (accuracyCircle d)
    (zoom d) (effects d).

Definition set_accuracyCircle (v : option Layer) (d : Dashboard) : Dashboard :=
  mkDashboard (currentPosition d) (isNavigating d) (userLocationMarker d) v
    (zoom d) (effects d).

Definition set_zoom (v : R) (d : Dashboard) : Dashboard :=
  mkDashboard (currentPosition d) (isNavigating d) (userLocationMarker d)
    (accuracyCircle d) v (effects d).

(** [value || 0] for a number that may be [null]. *)
Definition orZero (value : option R) : R :=
  match value with
  | Some v => v
  | None => 0
  end.

(** The object [newPosition] of [updateCurrentPosition]; [now] is
    [Date.now()]. *)
Definition newPositionOf (now : R) (position : Geolocation.Position) : Position :=
  mkPosition (Geolocation.latitude position) (Geolocation.longitude position)
    (Geolocation.accuracy position)
    (Some (orZero (Geolocation.speed position)))
    (Geolocation.heading position)
    now.

(** Update current position during navigation. *)
Definition updateCurrentPosition (now : R) (position : Geolocation.Position)
    (d : Dashboard) : Dashboard :=
  let newPosition := newPositionOf now position in
  (* Check if position actually changed (avoid duplicate updates) *)
  let skip :=
    match currentPosition d with
    | Some current =>
        let distance :=
          calculateDistance (lat current) (lng current)
            (lat newPosition) (lng newPosition) in
        ltb distance 0.002 && geb (accuracy newPosition) (accuracy current)
    | None => false
    end in
  if skip then d
  else
    let d := set_currentPosition (Some newPosition) d in
    let d :=
      match userLocationMarker d with
      | Some marker => emit (RemoveLayer marker) d
      | None => d
      end in
    let markerIcon :=
      if isNavigating d then NavigationArrow (orZero (heading newPosition))
      else LocationDot in
    let marker := Marker (lat newPosition) (lng newPosition) markerIcon in
    let d := emit (AddLayer marker) (set_userLocationMarker (Some marker) d) in
    let d :=
      match accuracyCircle d with
      | Some circle => emit (RemoveLayer circle) d
      | None => d
      end in
    let d :=
      if ltb (accuracy newPosition) 100 then
        let circle :=
          Circle (lat newPosition) (lng newPosition) (accuracy newPosition) in
        emit (AddLayer circle) (set_accuracyCircle (Some circle) d)
      else d in
    let d :=
      if isNavigating d then
        let z := Rmax (zoom d) 16 in
        emit UpdateNavigationDisplay
          (emit (SetView (lat newPosition) (lng newPosition) z) (set_zoom z d))
      else d in
    emit (UpdateLocationPanel newPosition) d.

(** The callback that [startLocationTracking] passes to [watchPosition]:
    only update if accuracy is reasonable or we don't have a position yet. *)
Definition onWatchPosition (now : R) (position : Geolocation.Position)
    (d : Dashboard) : Dashboard :=
  if match currentPosition d with None => true | Some _ => false end
     || leb (Geolocation.accuracy position) 100
  then updateCurrentPosition now position d
  else d.

(** The samples of a session, one after the other; each with its time. *)
Definition onWatchPositions (samples : list (R * Geolocation.Position))
    (d : Dashboard) : Dashboard :=
  fold_left (fun d s => onWatchPosition (fst s) (snd s) d) samples d.

End RoutingDashboard.

(** Two fixes for the dashboard: a first one of 500 m accuracy, and one of
    200 m accuracy 0.01 degrees to the east of it. *)
Definition coarseFix : Geolocation.Position := sample 0 0 500.
Definition lessCoarseFix : Geolocation.Position := sample 0 0.01 200.
(** A fix of 5 m accuracy, one at the same place that is no better, one at
    the same place that is better, and one 0.01 degrees to the east. *)
Definition fineFix : Geolocation.Position := sample 0 0 5.
Definition sameFix : Geolocation.Position := sample 0 0 5.
Definition finerFix : Geolocation.Position := sample 0 0 3.
Definition movedFix : Geolocation.Position := sample 0 0.01 5.

(** The dashboard with [fineFix] as its position, taken at time 0. *)
Definition tracked : RoutingDashboard.Dashboard :=
  RoutingDashboard.set_currentPosition
    (Some (RoutingDashboard.newPositionOf 0 fineFix)) RoutingDashboard.initial.
(** ** Facts about comparisons *)

Lemma ltb_true (x y : R) : x < y -> ltb x y = true.
Proof. unfold ltb. destruct (Rlt_dec x y); [reflexivity | contradiction]. Qed.

Lemma ltb_false (x y : R) : y <= x -> ltb x y = false.
Proof. unfold ltb. destruct (Rlt_dec x y); [lra | reflexivity]. Qed.

Lemma ltb_spec (x y : R) : reflect (x < y) (ltb x y).
Proof. unfold ltb. destruct (Rlt_dec x y); constructor; assumption. Qed.

Lemma neqb_true (x y : R) : x <> y -> neqb x y = true.
Proof. unfold neqb. destruct (Req_dec_T x y); [contradiction | reflexivity]. Qed.

Lemma neqb_false (x : R) : neqb x x = false.
Proof. unfold neqb. destruct (Req_dec_T x x); [reflexivity | contradiction]. Qed.

(** ** Facts about the geometry kernel *)

(** For an angle [h] of the first quadrant, [atan2 (sin h) (cos h)] is [h]. *)
Lemma atan2_sin_cos (h : R) :
  0 <= h < PI / 2 -> Math.atan2 (sin h) (cos h) = h.
Proof.
  unfold Math.atan2. intros [H0 H1].
  assert (Hc : 0 < cos h) by (apply cos_gt_0; lra).
  destruct (Rlt_dec 0 (cos h)) as [_ | n]; [| contradiction].
  change (sin h / cos h) with (tan h). apply atan_tan. lra.
Qed.

Lemma atan2_nonneg (y x : R) : 0 <= y -> 0 <= x -> 0 <= Math.atan2 y x.
Proof.
  intros Hy Hx. unfold Math.atan2.
  destruct (Rlt_dec 0 x) as [Hpos | Hnpos].
  - destruct Hy as [Hy | <-].
    + left. rewrite <- atan_0. apply atan_increasing.
      apply Rdiv_lt_0_compat; assumption.
    + unfold Rdiv. rewrite Rmult_0_l, atan_0. lra.
  - destruct (Rlt_dec x 0); [lra |].
    destruct (Rlt_dec 0 y).
    + pose proof PI2_RGT_0. unfold Math.PI. lra.
    + destruct (Rlt_dec y 0); lra.
Qed.

(** Over the reals, the Haversine distance is never negative. *)
Lemma calculateDistance_nonneg (lat1 lon1 lat2 lon2 : R) :
  0 <= calculateDistance lat1 lon1 lat2 lon2.
Proof.
  unfold calculateDistance. cbv zeta.
  apply Rmult_le_pos; [lra |]. apply Rmult_le_pos; [lra |].
  apply atan2_nonneg; apply sqrt_pos.
Qed.

(** Two identical points are at distance zero. *)
Lemma calculateDistance_same (lat lon : R) : calculateDistance lat lon lat lon = 0.
Proof.
  unfold calculateDistance. cbv zeta.
  replace ((lat - lat) * Math.PI / 180 / 2) with 0 by lra.
  replace ((lon - lon) * Math.PI / 180 / 2) with 0 by lra.
  unfold Math.sin, Math.sqrt. rewrite sin_0.
  replace (0 * 0 + Math.cos (lat * Math.PI / 180) * Math.cos (lat * Math.PI / 180) * 0 * 0)
    with 0 by ring.
  rewrite Rminus_0_r, sqrt_0, sqrt_1.
  unfold Math.atan2. destruct (Rlt_dec 0 1) as [_ | n]; [| lra].
  unfold Rdiv. rewrite Rmult_0_l, atan_0. ring.
Qed.

(** The angle that the Haversine formula recovers from [sin h], for a half
    angle [h] between a quarter turn either way. *)
Lemma haversine_angle (h : R) :
  - (PI / 2) < h < PI / 2 ->
  Math.atan2 (sqrt (sin h * sin h)) (sqrt (1 - sin h * sin h)) = Rabs h.
Proof.
  intros [Hlo Hhi].
  assert (Hcos : 1 - sin h * sin h = Rsqr (cos h)).
  { pose proof (sin2_cos2 h) as E. unfold Rsqr in *. lra. }
  rewrite Hcos. fold (Rsqr (sin h)). rewrite !sqrt_Rsqr_abs.
  assert (Hc : 0 < cos h) by (apply cos_gt_0; lra).
  rewrite (Rabs_pos_eq (cos h)) by lra.
  destruct (Rle_dec 0 h) as [Hpos | Hneg].
  - rewrite (Rabs_pos_eq h) by assumption.
    rewrite Rabs_pos_eq by (apply sin_ge_0; lra).
    apply atan2_sin_cos. lra.
  - rewrite (Rabs_left h) by lra.
    rewrite Rabs_left.
    + rewrite <- sin_neg, <- (cos_neg h). apply atan2_sin_cos. lra.
    + apply sin_lt_0_var; lra.
Qed.

(** Along the equator the distance is the arc: the radius times the
    difference of the longitudes in radians. *)
Lemma calculateDistance_equator (lon1 lon2 : R) :
  Rabs (lon2 - lon1) < 180 ->
  calculateDistance 0 lon1 0 lon2 = 6371e3 * (Rabs (lon2 - lon1) * PI / 180).
Proof.
  intros Hd. unfold calculateDistance. cbv zeta.
  unfold Math.sin, Math.cos, Math.sqrt, Math.PI.
  set (h := (lon2 - lon1) * PI / 180 / 2).
  assert (Hpi : 0 < PI) by apply PI_RGT_0.
  assert (Hh : - (PI / 2) < h < PI / 2).
  { apply Rabs_def2 in Hd. unfold h. split; nra. }
  replace ((0 - 0) * PI / 180 / 2) with 0 by lra.
  replace (0 * PI / 180) with 0 by lra.
  rewrite sin_0, cos_0.
  replace (0 * 0 + 1 * 1 * sin h * sin h) with (sin h * sin h) by ring.
  rewrite haversine_angle by exact Hh.
  unfold h. replace ((lon2 - lon1) * PI / 180 / 2) with ((lon2 - lon1) * (PI / 360)) by lra.
  rewrite Rabs_mult, (Rabs_pos_eq (PI / 360)) by lra. lra.
Qed.

(** Along a meridian likewise, with the latitudes. *)
Lemma calculateDistance_meridian (lat1 lat2 lon : R) :
  Rabs (lat2 - lat1) < 180 ->
  calculateDistance lat1 lon lat2 lon = 6371e3 * (Rabs (lat2 - lat1) * PI / 180).
Proof.
  intros Hd. unfold calculateDistance. cbv zeta.
  unfold Math.sin, Math.cos, Math.sqrt, Math.PI.
  set (h := (lat2 - lat1) * PI / 180 / 2).
  assert (Hpi : 0 < PI) by apply PI_RGT_0.
  assert (Hh : - (PI / 2) < h < PI / 2).
  { apply Rabs_def2 in Hd. unfold h. split; nra. }
  replace ((lon - lon) * PI / 180 / 2) with 0 by lra.
  rewrite sin_0.
  replace (sin h * sin h + cos (lat1 * PI / 180) * cos (lat2 * PI / 180) * 0 * 0)
    with (sin h * sin h) by ring.
  rewrite haversine_angle by exact Hh.
  unfold h. replace ((lat2 - lat1) * PI / 180 / 2) with ((lat2 - lat1) * (PI / 360)) by lra.
  rewrite Rabs_mult, (Rabs_pos_eq (PI / 360)) by lra. lra.
Qed.

(** Bounds of an arc of [x] degrees, from [3 < PI <= 4]. *)
Lemma arc_bounds (x : R) :
  0 <= x ->
  6371e3 * x / 60 <= 6371e3 * (x * PI / 180) <= 6371e3 * x / 45.
Proof.
  intros Hx. pose proof PI2_3_2. pose proof PI_4. split; nra.
Qed.

(** A segment of the equator, from longitude [y1] to [y2]: the distance from
    a point whose longitude is within the segment is the distance to the
    equator along the point's meridian. *)
Lemma distanceToLineSegment_equator_within (px py y1 y2 : R) :
  y1 < y2 -> y1 <= py <= y2 ->
  distanceToLineSegment px py 0 y1 0 y2 = calculateDistance px py 0 py.
Proof.
  intros Hlen [Hlo Hhi]. unfold distanceToLineSegment. cbv zeta.
  assert (Hsq : (0 - 0) * (0 - 0) + (y2 - y1) * (y2 - y1) <> 0) by nra.
  rewrite (neqb_true _ _ Hsq).
  set (param := ((px - 0) * (0 - 0) + (py - y1) * (y2 - y1))
                / ((0 - 0) * (0 - 0) + (y2 - y1) * (y2 - y1))).
  assert (Hparam : param = (py - y1) / (y2 - y1)).
  { unfold param. field. lra. }
  assert (H0 : 0 <= param).
  { rewrite Hparam. apply Rmult_le_pos; [lra |]. left. apply Rinv_0_lt_compat. lra. }
  assert (H1 : param <= 1).
  { rewrite Hparam. apply Rmult_le_reg_r with (y2 - y1); [lra |].
    unfold Rdiv. rewrite Rmult_assoc, Rinv_l by lra. lra. }
  rewrite (ltb_false param 0 H0). unfold gtb. rewrite (ltb_false 1 param H1).
  f_equal.
  - lra.
  - rewrite Hparam. field. lra.
Qed.

(** Beyond the end of such a segment the distance is the one to its end. *)
Lemma distanceToLineSegment_equator_beyond (px py y1 y2 : R) :
  y1 < y2 -> y2 < py ->
  distanceToLineSegment px py 0 y1 0 y2 = calculateDistance px py 0 y2.
Proof.
  intros Hlen Hpy. unfold distanceToLineSegment. cbv zeta.
  assert (Hsq : (0 - 0) * (0 - 0) + (y2 - y1) * (y2 - y1) <> 0) by nra.
  rewrite (neqb_true _ _ Hsq).
  set (param := ((px - 0) * (0 - 0) + (py - y1) * (y2 - y1))
                / ((0 - 0) * (0 - 0) + (y2 - y1) * (y2 - y1))).
  assert (Hparam : param = (py - y1) / (y2 - y1)).
  { unfold param. field. lra. }
  assert (H1 : 1 < param).
  { rewrite Hparam. apply Rmult_lt_reg_r with (y2 - y1); [lra |].
    unfold Rdiv. rewrite Rmult_assoc, Rinv_l by lra. lra. }
  rewrite (ltb_false param 0) by lra. unfold gtb. rewrite (ltb_true 1 param H1).
  reflexivity.
Qed.

(** On a segment without length the distance is the one to its point. *)
Lemma distanceToLineSegment_point (px py x1 y1 : R) :
  distanceToLineSegment px py x1 y1 x1 y1 = calculateDistance px py x1 y1.
Proof.
  unfold distanceToLineSegment. cbv zeta.
  replace ((x1 - x1) * (x1 - x1) + (y1 - y1) * (y1 - y1)) with 0 by ring.
  rewrite neqb_false. rewrite ltb_true by lra. reflexivity.
Qed.

(** ** Facts about the state machine *)

#[local] Arguments calculateDistance : simpl never.
#[local] Arguments calculateDistanceToRoute : simpl never.
#[local] Arguments calculateDistanceAlongRoute : simpl never.
#[local] Arguments ltb : simpl never.
#[local] Arguments gt_Num : simpl never.
#[local] Arguments nth_error : simpl never.
#[local] Arguments latOf : simpl never.
#[local] Arguments lngOf : simpl never.
#[local] Arguments updateNavigation : simpl never.
#[local] Arguments updateNavigationUI : simpl never.
#[local] Arguments advanceToNextStep : simpl never.
#[local] Arguments arriveAtDestination : simpl never.
#[local] Arguments handleOffRoute : simpl never.
#[local] Arguments handleLocationUpdate : simpl never.

(** Case analysis that follows the methods from the inside out: a condition
    is split once nothing in it is left to unfold. *)
Ltac ready x :=
  lazymatch x with
  | context [match _ with _ => _ end] => fail
  | context [updateNavigation] => fail
  | context [updateNavigationUI] => fail
  | context [advanceToNextStep] => fail
  | context [arriveAtDestination] => fail
  | context [handleOffRoute] => fail
  | _ => idtac
  end.

Ltac split_ready :=
  match goal with
  | |- context [match ?x with _ => _ end] => ready x; destruct x eqn:?
  end.

Ltac settle := repeat (cbn; split_ready); cbn.

Ltac unfold_setters :=
  cbv beta iota delta
    [set_currentPosition set_destinationMarker set_isNavigating set_steps
     set_currentStepIndex set_totalDistance set_totalDuration
     set_remainingDistance set_routeGeometry set_lastSpokenInstruction
     set_recalculationTimeout set_timers set_nextTimerId set_clock
     set_inflight set_nextRequestId set_log
     currentPosition destinationMarker isNavigating steps currentStepIndex
     totalDistance totalDuration remainingDistance routeGeometry
     lastSpokenInstruction offRouteThreshold recalculationTimeout timers
     nextTimerId clock inflight nextRequestId log].

(** Evaluation of the event loop on a world that is written out: the
    methods that branch on numbers are not touched. *)
Ltac run_events :=
  cbv beta iota zeta delta
    [run step runCallback stopNavigation recalculationFires recalculationResumes
     calculateRouteResumes calculateRoute storeRoute setDestination
     clearTimeout emit showToast speakInstruction pendingTimer
     find filter existsb negb andb Nat.eqb Nat.ltb Nat.leb
     tid due callback markerLat markerLng lat lng
     set_currentPosition set_destinationMarker set_isNavigating set_steps
     set_currentStepIndex set_totalDistance set_totalDuration
     set_remainingDistance set_routeGeometry set_lastSpokenInstruction
     set_recalculationTimeout set_timers set_nextTimerId set_clock
     set_inflight set_nextRequestId set_log
     currentPosition destinationMarker isNavigating steps currentStepIndex
     totalDistance totalDuration remainingDistance routeGeometry
     lastSpokenInstruction offRouteThreshold recalculationTimeout timers
     nextTimerId clock inflight nextRequestId log].

Ltac nav_cases :=
  unfold handleLocationUpdate; settle;
  try unfold updateNavigation; settle;
  try unfold updateNavigationUI, differsFromLastSpoken; settle;
  try unfold advanceToNextStep; settle;
  try unfold arriveAtDestination; settle;
  try unfold handleOffRoute; settle;
  unfold showToast, speakInstruction, emit, setTimeout in *; cbn.

(** A location update while navigating with a current step is [tick]. *)
Lemma handleLocationUpdate_tick (position : Geolocation.Position) (currentStep : Step)
    (w : World) :
  isNavigating w = true ->
  nth_error (steps w) (currentStepIndex w) = Some currentStep ->
  handleLocationUpdate position w = tick position currentStep w.
Proof.
  destruct w. cbn. intros -> Hstep.
  remember (tick _ _ _) as closed eqn:Hclosed.
  unfold handleLocationUpdate. cbn. unfold updateNavigation. cbn.
  rewrite Hstep.
  nav_cases.
  all: subst closed; unfold tick, offRoute, distanceToStep, differsFromLastSpoken; cbn.
  all: repeat match goal with H : _ = _ |- _ => rewrite H; clear H end.
  all: unfold_setters; cbn [andb app]; rewrite <- ?app_assoc, ?app_nil_r; reflexivity.
Qed.

(** A location update while idle only stores the position. *)
Lemma handleLocationUpdate_idle (position : Geolocation.Position) (w : World) :
  isNavigating w = false ->
  handleLocationUpdate position w = set_currentPosition (Some (positionOf position)) w.
Proof.
  intros Hidle. unfold handleLocationUpdate. cbn. rewrite Hidle. reflexivity.
Qed.

(** A location update after the last step declares the arrival again. *)
Lemma handleLocationUpdate_beyond (position : Geolocation.Position) (w : World) :
  isNavigating w = true ->
  nth_error (steps w) (currentStepIndex w) = None ->
  handleLocationUpdate position w =
    arriveAtDestination (set_currentPosition (Some (positionOf position)) w).
Proof.
  intros Hnav Hnone. unfold handleLocationUpdate. cbn. rewrite Hnav.
  unfold updateNavigation. cbn. rewrite Hnav, Hnone. reflexivity.
Qed.

(** The three ways a location update goes. *)
Lemma handleLocationUpdate_cases (position : Geolocation.Position) (w : World) :
  handleLocationUpdate position w = set_currentPosition (Some (positionOf position)) w \/
  handleLocationUpdate position w =
    arriveAtDestination (set_currentPosition (Some (positionOf position)) w) \/
  exists currentStep,
    nth_error (steps w) (currentStepIndex w) = Some currentStep /\
    handleLocationUpdate position w = tick position currentStep w.
Proof.
  destruct (isNavigating w) eqn:Hnav.
  - destruct (nth_error (steps w) (currentStepIndex w)) as [currentStep |] eqn:Hstep.
    + right. right. exists currentStep. split; [reflexivity |].
      apply handleLocationUpdate_tick; assumption.
    + right. left. apply handleLocationUpdate_beyond; assumption.
  - left. apply handleLocationUpdate_idle. assumption.
Qed.

Ltac by_cases position w :=
  destruct (handleLocationUpdate_cases position w)
    as [-> | [-> | (?currentStep & ?Hstep & ->)]].

(** What a location update leaves as it is. *)
Lemma handleLocationUpdate_frame (position : Geolocation.Position) (w : World) :
  let w' := handleLocationUpdate position w in
  steps w' = steps w /\ routeGeometry w' = routeGeometry w /\
  destinationMarker w' = destinationMarker w /\ isNavigating w' = isNavigating w /\
  offRouteThreshold w' = offRouteThreshold w /\ clock w' = clock w /\
  inflight w' = inflight w /\ nextRequestId w' = nextRequestId w /\
  currentPosition w' = Some (positionOf position).
Proof.
  by_cases position w; cbn; repeat split; reflexivity.
Qed.

(** ** The example route, evaluated *)

Lemma distanceToRoute_road (lat lng : R) :
  calculateDistanceToRoute lat lng road = Fin (distanceToLineSegment lat lng 0 0 0 0.01).
Proof. reflexivity. Qed.

(** On the road, between its ends, the distance to the route is zero. *)
Lemma onRoad_distance (lng : R) :
  0 <= lng <= 0.01 -> calculateDistanceToRoute 0 lng road = Fin 0.
Proof.
  intros Hlng. rewrite distanceToRoute_road.
  rewrite distanceToLineSegment_equator_within by lra.
  rewrite calculateDistance_same. reflexivity.
Qed.

(** North of the road by [lat] degrees, the distance to the route is the arc
    of [lat] degrees. *)
Lemma northOfRoad_distance (lat lng : R) :
  0 <= lat < 180 -> 0 <= lng <= 0.01 ->
  calculateDistanceToRoute lat lng road = Fin (6371e3 * (lat * PI / 180)).
Proof.
  intros Hlat Hlng. rewrite distanceToRoute_road.
  rewrite distanceToLineSegment_equator_within by lra.
  rewrite calculateDistance_meridian.
  - replace (0 - lat) with (- lat) by ring.
    rewrite Rabs_Ropp, Rabs_pos_eq by lra. reflexivity.
  - replace (0 - lat) with (- lat) by ring.
    rewrite Rabs_Ropp, Rabs_pos_eq by lra. lra.
Qed.

(** Past the end of the road, it is the arc to the end. *)
Lemma pastRoad_distance (lng : R) :
  0.01 < lng < 180 ->
  calculateDistanceToRoute 0 lng road = Fin (6371e3 * ((lng - 0.01) * PI / 180)).
Proof.
  intros Hlng. rewrite distanceToRoute_road.
  rewrite distanceToLineSegment_equator_beyond by lra.
  rewrite calculateDistance_equator.
  - replace (0.01 - lng) with (- (lng - 0.01)) by ring.
    rewrite Rabs_Ropp, Rabs_pos_eq by lra. reflexivity.
  - replace (0.01 - lng) with (- (lng - 0.01)) by ring.
    rewrite Rabs_Ropp, Rabs_pos_eq by lra. lra.
Qed.

Lemma gt_Num_Fin (r x : R) : gt_Num (Fin r) x = ltb x r.
Proof. reflexivity. Qed.

Lemma started_eq :
  started =
  mkWorld None (Some (mkLatLng 0 0.01)) true [departStep; turnStep; arriveStep] 0
    1112 100 1112 road None 50 None [] 1 0 [] 0
    [Toast "Navigation started!" "success";
     Speak (Plain "Head east onto Equator Road");
     DrawRoute road].
Proof. reflexivity. Qed.

(** The distances of the examples. *)
Lemma atDeparture_departStep : distanceToStep atDeparture departStep = 0.
Proof. apply calculateDistance_same. Qed.

Lemma atTurn_turnStep : distanceToStep atTurn turnStep = 0.
Proof. apply calculateDistance_same. Qed.

Lemma onRoad_turnStep :
  distanceToStep onRoad turnStep = 6371e3 * (0.001 * PI / 180).
Proof.
  unfold distanceToStep, onRoad, turnStep, sample, latOf, lngOf. cbn.
  rewrite calculateDistance_meridian.
  - replace (0.001 - 0) with 0.001 by lra. rewrite Rabs_pos_eq by lra. reflexivity.
  - replace (0.001 - 0) with 0.001 by lra. rewrite Rabs_pos_eq by lra. lra.
Qed.

Lemma atDeparture_onRoute (w : World) :
  routeGeometry w = road -> offRouteThreshold w = 50 -> offRoute atDeparture w = false.
Proof.
  intros Hg Ht. unfold offRoute. rewrite Hg, Ht. cbn.
  rewrite onRoad_distance by lra. rewrite gt_Num_Fin. apply ltb_false. lra.
Qed.

Lemma onRoad_onRoute (w : World) :
  routeGeometry w = road -> offRouteThreshold w = 50 -> offRoute onRoad w = false.
Proof.
  intros Hg Ht. unfold offRoute. rewrite Hg, Ht. cbn.
  rewrite onRoad_distance by lra. rewrite gt_Num_Fin. apply ltb_false. lra.
Qed.

Lemma atTurn_offRoute (w : World) :
  routeGeometry w = road -> offRouteThreshold w = 50 -> offRoute atTurn w = true.
Proof.
  intros Hg Ht. unfold offRoute. rewrite Hg, Ht. cbn.
  rewrite northOfRoad_distance by lra. rewrite gt_Num_Fin. apply ltb_true.
  pose proof (arc_bounds 0.001). lra.
Qed.

Lemma pastRouteEnd_offRoute (w : World) :
  routeGeometry w = road -> offRouteThreshold w = 50 -> offRoute pastRouteEnd w = true.
Proof.
  intros Hg Ht. unfold offRoute. rewrite Hg, Ht. cbn.
  rewrite pastRoad_distance by lra. rewrite gt_Num_Fin. apply ltb_true.
  pose proof (arc_bounds (0.02 - 0.01)). lra.
Qed.

(** The first fix at the start of the road: the departure is announced, the
    step is completed and the turn is announced. *)
Lemma afterDeparture_eq :
  afterDeparture =
  mkWorld (Some (positionOf atDeparture)) (Some (mkLatLng 0 0.01)) true
    [departStep; turnStep; arriveStep] 1 1112 100
    (0 + 556 - calculateDistanceAlongRoute 0 0 road) road
    (Some "Turn left onto Equator Road") 50 None [] 1 0 [] 0
    [Speak (Plain "Turn left onto Equator Road");
     Speak (Approach 0 "Head east onto Equator Road");
     Toast "Navigation started!" "success";
     Speak (Plain "Head east onto Equator Road");
     DrawRoute road].
Proof.
  unfold afterDeparture.
  rewrite (handleLocationUpdate_tick atDeparture departStep started) by reflexivity.
  unfold tick. cbv zeta.
  rewrite atDeparture_departStep, (atDeparture_onRoute started) by reflexivity.
  rewrite !ltb_true by lra. reflexivity.
Qed.

(** At the end of the road the closest vertex is the last one, and the
    distance along the route is the length of the road. *)
Lemma alongRoute_atRouteEnd :
  calculateDistanceAlongRoute 0 0.01 road = 0 + 6371e3 * (0.01 * PI / 180).
Proof.
  assert (Hlen : calculateDistance 0 0 0 0.01 = 6371e3 * (0.01 * PI / 180)).
  { rewrite calculateDistance_equator.
    - replace (0.01 - 0) with 0.01 by lra. rewrite Rabs_pos_eq by lra. reflexivity.
    - replace (0.01 - 0) with 0.01 by lra. rewrite Rabs_pos_eq by lra. lra. }
  assert (Hback : calculateDistance 0 0.01 0 0 = 6371e3 * (0.01 * PI / 180)).
  { rewrite calculateDistance_equator.
    - replace (0 - 0.01) with (Ropp 0.01) by lra.
      rewrite Rabs_Ropp, Rabs_pos_eq by lra. reflexivity.
    - replace (0 - 0.01) with (Ropp 0.01) by lra.
      rewrite Rabs_Ropp, Rabs_pos_eq by lra. lra. }
  unfold calculateDistanceAlongRoute, road.
  cbn [closestLoop lt_Num]. unfold latOf, lngOf. cbn [fst snd].
  rewrite Hback, calculateDistance_same.
  rewrite ltb_true by (pose proof (arc_bounds 0.01); lra).
  cbn [segments firstn fold_left segmentLength]. unfold latOf, lngOf. cbn [fst snd].
  rewrite Hlen. reflexivity.
Qed.

Lemma pastRouteEnd_departStep :
  distanceToStep pastRouteEnd departStep = 6371e3 * (0.02 * PI / 180).
Proof.
  unfold distanceToStep, pastRouteEnd, departStep, sample, latOf, lngOf. cbn.
  rewrite calculateDistance_equator.
  - replace (0 - 0.02) with (Ropp 0.02) by lra.
    rewrite Rabs_Ropp, Rabs_pos_eq by lra. reflexivity.
  - replace (0 - 0.02) with (Ropp 0.02) by lra.
    rewrite Rabs_Ropp, Rabs_pos_eq by lra. lra.
Qed.

Lemma onRoad_departStep :
  distanceToStep onRoad departStep = 6371e3 * (0.005 * PI / 180).
Proof.
  unfold distanceToStep, onRoad, departStep, sample, latOf, lngOf. cbn.
  rewrite calculateDistance_equator.
  - replace (0 - 0.005) with (Ropp 0.005) by lra.
    rewrite Rabs_Ropp, Rabs_pos_eq by lra. reflexivity.
  - replace (0 - 0.005) with (Ropp 0.005) by lra.
    rewrite Rabs_Ropp, Rabs_pos_eq by lra. lra.
Qed.

(** The second fix, at the turn: the arrival step becomes current and is
    announced, and the recalculation is set going. *)
Lemma afterTurn_eq :
  afterTurn =
  mkWorld (Some (positionOf atTurn)) (Some (mkLatLng 0 0.01)) true
    [departStep; turnStep; arriveStep] 2 1112 100
    (0 + 556 + 556 - calculateDistanceAlongRoute 0.001 0.005 road) road
    (Some "You have arrived at your destination") 50 (Some 1%nat)
    [mkTimer 1 3000 CbRecalculate] 2 0 [] 0
    (Speak (Plain "Recalculating route")
     :: Toast "Recalculating route..." "warning"
     :: Speak (Plain "You have arrived at your destination")
     :: log afterDeparture).
Proof.
  unfold afterTurn. rewrite afterDeparture_eq.
  rewrite (handleLocationUpdate_tick atTurn turnStep) by reflexivity.
  unfold tick. cbv zeta.
  rewrite atTurn_turnStep, atTurn_offRoute by reflexivity.
  rewrite !ltb_true by lra. reflexivity.
Qed.

(** The traveler past the end of the road: the recalculation is set going. *)
Lemma leftRoute_eq :
  leftRoute =
  mkWorld (Some (positionOf pastRouteEnd)) (Some (mkLatLng 0 0.01)) true
    [departStep; turnStep; arriveStep] 0 1112 100
    (0 + 556 - calculateDistanceAlongRoute 0 0.02 road) road
    None 50 (Some 1%nat) [mkTimer 1 3000 CbRecalculate] 2 0 [] 0
    (Speak (Plain "Recalculating route")
     :: Toast "Recalculating route..." "warning"
     :: log started).
Proof.
  unfold leftRoute. rewrite started_eq. unfold_setters.
  rewrite (handleLocationUpdate_tick pastRouteEnd departStep) by reflexivity.
  unfold tick. cbv zeta.
  rewrite pastRouteEnd_departStep, pastRouteEnd_offRoute by reflexivity.
  rewrite !ltb_false by (pose proof (arc_bounds 0.02); lra). reflexivity.
Qed.

(** Back on the road a second later: nothing but the position, the time
    and the remaining distance changes. *)
Lemma rejoined_eq :
  rejoined =
  mkWorld (Some (positionOf onRoad)) (Some (mkLatLng 0 0.01)) true
    [departStep; turnStep; arriveStep] 0 1112 100
    (0 + 556 - calculateDistanceAlongRoute 0 0.005 road) road
    None 50 (Some 1%nat) [mkTimer 1 3000 CbRecalculate] 2 1000 [] 0
    (log leftRoute).
Proof.
  unfold rejoined. rewrite leftRoute_eq. unfold_setters.
  rewrite (handleLocationUpdate_tick onRoad departStep) by reflexivity.
  unfold tick. cbv zeta.
  rewrite onRoad_departStep, onRoad_onRoute by reflexivity.
  rewrite !ltb_false by (pose proof (arc_bounds 0.005); lra). reflexivity.
Qed.

(** On the road south of the turn, about 111 m from its maneuver location:
    nothing is said. *)
Lemma approachingTurn_eq :
  approachingTurn =
  mkWorld (Some (positionOf onRoad)) (Some (mkLatLng 0 0.01)) true
    [departStep; turnStep; arriveStep] 1 1112 100
    (0 + 556 + 556 - calculateDistanceAlongRoute 0 0.005 road) road
    (Some "Turn left onto Equator Road") 50 None [] 1 0 [] 0
    (log afterDeparture).
Proof.
  unfold approachingTurn. rewrite afterDeparture_eq.
  rewrite (handleLocationUpdate_tick onRoad turnStep) by reflexivity.
  unfold tick. cbv zeta.
  rewrite onRoad_turnStep, onRoad_onRoute by reflexivity.
  rewrite (ltb_true _ 200) by (pose proof (arc_bounds 0.001); lra).
  rewrite (ltb_false _ 20) by (pose proof (arc_bounds 0.001); lra).
  reflexivity.
Qed.

(** ** Timers and the pending recalculation *)

Lemma find_app_first {A : Type} (f : A -> bool) (l l' : list A) (a : A) :
  find f l = Some a -> find f (l ++ l') = Some a.
Proof.
  induction l as [| x l IH]; cbn; [discriminate |].
  destruct (f x); [trivial | exact IH].
Qed.

Lemma find_app_later {A : Type} (f : A -> bool) (l l' : list A) :
  (forall x, In x l -> f x = false) -> find f (l ++ l') = find f l'.
Proof.
  induction l as [| x l IH]; cbn; intros Hnone; [reflexivity |].
  rewrite (Hnone x) by (left; reflexivity). apply IH.
  intros y Hy. apply Hnone. right. exact Hy.
Qed.

(** Location updates only add timers, behind the pending ones. *)
Lemma handleLocationUpdate_timers (position : Geolocation.Position) (w : World) :
  exists added, timers (handleLocationUpdate position w) = (timers w ++ added)%list.
Proof.
  by_cases position w.
  - exists []. cbn. rewrite app_nil_r. reflexivity.
  - eexists. cbn. reflexivity.
  - eexists. cbn. reflexivity.
Qed.

Lemma handleLocationUpdate_pendingTimer (position : Geolocation.Position) (w : World)
    (id : nat) (t : Timer) :
  pendingTimer id w = Some t ->
  pendingTimer id (handleLocationUpdate position w) = Some t.
Proof.
  unfold pendingTimer. intros Hfind.
  destruct (handleLocationUpdate_timers position w) as [added ->].
  apply find_app_first. exact Hfind.
Qed.

(** A pending recalculation is not replaced. *)
Lemma handleLocationUpdate_keeps_timeout (position : Geolocation.Position) (w : World)
    (id : nat) :
  recalculationTimeout w = Some id ->
  recalculationTimeout (handleLocationUpdate position w) = Some id.
Proof.
  intros Hsome. by_cases position w; cbn; try assumption.
  rewrite Hsome, andb_false_r. reflexivity.
Qed.

Lemma recalculationPending_update (position : Geolocation.Position) (now : nat)
    (id dueTime : nat) (dest : LatLng) (w : World) :
  recalculationPending id dueTime dest w ->
  recalculationPending id dueTime dest (handleLocationUpdate position (set_clock now w)).
Proof.
  intros (Htimeout & Htimer & Hdest & _).
  destruct (handleLocationUpdate_frame position (set_clock now w))
    as (_ & _ & Hmarker & _ & _ & _ & _ & _ & Hpos).
  repeat split.
  - apply handleLocationUpdate_keeps_timeout. exact Htimeout.
  - apply handleLocationUpdate_pendingTimer. exact Htimer.
  - rewrite Hmarker. exact Hdest.
  - eexists. exact Hpos.
Qed.

Lemma step_locationUpdate (now : nat) (position : Geolocation.Position) (w : World) :
  (clock w <= now)%nat ->
  step now (LocationUpdate position) w =
    Some (handleLocationUpdate position (set_clock now w)).
Proof.
  intros Hnow. unfold step.
  destruct (Nat.ltb_spec now (clock w)); [lia | reflexivity].
Qed.

(** However many location updates follow, wherever they are, the pending
    recalculation stays pending. *)
Lemma recalculationPending_run (later : list (nat * Geolocation.Position)) :
  forall (id dueTime : nat) (dest : LatLng) (w : World),
    recalculationPending id dueTime dest w ->
    ascending (clock w) (map fst later) = true ->
    exists w2,
      run (locationUpdates later) w = Some w2 /\
      recalculationPending id dueTime dest w2.
Proof.
  induction later as [| [now position] later IH]; intros id dueTime dest w Hpending Htimes.
  - exists w. split; [reflexivity | exact Hpending].
  - cbn in Htimes. apply andb_prop in Htimes as [Hnow Hrest].
    apply Nat.leb_le in Hnow.
    cbn [locationUpdates map run]. rewrite step_locationUpdate by exact Hnow.
    apply IH.
    + apply recalculationPending_update. exact Hpending.
    + destruct (handleLocationUpdate_frame position (set_clock now w))
        as (_ & _ & _ & _ & _ & Hclock & _).
      rewrite Hclock. exact Hrest.
Qed.

(** The timer of a pending recalculation cannot fire before it is due. *)
Lemma recalculation_not_before_due (id dueTime : nat) (dest : LatLng) (w : World)
    (now : nat) :
  recalculationPending id dueTime dest w ->
  (now < dueTime)%nat ->
  step now (TimerFires id) w = None.
Proof.
  intros (_ & Htimer & _) Hearly. unfold step.
  destruct (now <? clock w)%nat; [reflexivity |].
  change (pendingTimer id (set_clock now w)) with (pendingTimer id w).
  rewrite Htimer. cbn.
  destruct (Nat.leb_spec dueTime now); [lia | reflexivity].
Qed.

(** When it fires, the route is requested, from the position of that time to
    the destination. *)
Lemma recalculation_fires (id dueTime : nat) (dest : LatLng) (pos : Position)
    (w : World) (now : nat) :
  recalculationPending id dueTime dest w ->
  currentPosition w = Some pos ->
  (clock w <= now)%nat -> (dueTime <= now)%nat ->
  exists w3,
    step now (TimerFires id) w = Some w3 /\
    log w3 =
      RouteRequest (nextRequestId w) (lat pos) (lng pos) (markerLat dest) (markerLng dest)
      :: log w /\
    inflight w3 = nextRequestId w :: inflight w.
Proof.
  intros (_ & Htimer & Hdest & _) Hpos Hclock Hdue. unfold step.
  destruct (Nat.ltb_spec now (clock w)); [lia |].
  change (pendingTimer id (set_clock now w)) with (pendingTimer id w).
  rewrite Htimer. cbn.
  destruct (Nat.leb_spec dueTime now); [| lia].
  eexists. split; [reflexivity |].
  unfold recalculationFires. cbn. rewrite Hdest, Hpos. cbn. split; reflexivity.
Qed.

(** The first sample off the route, with nothing pending, sets the timer. *)
Lemma offRoute_sets_timer (position : Geolocation.Position) (currentStep : Step)
    (dest : LatLng) (w : World) :
  wellFormed w ->
  isNavigating w = true ->
  nth_error (steps w) (currentStepIndex w) = Some currentStep ->
  recalculationTimeout w = None ->
  destinationMarker w = Some dest ->
  offRoute position w = true ->
  exists id,
    recalculationPending id (clock w + 3000) dest (handleLocationUpdate position w).
Proof.
  intros Hwf Hnav Hstep Hnone Hdest Hoff.
  rewrite (handleLocationUpdate_tick position currentStep w Hnav Hstep).
  unfold recalculationPending, pendingTimer, tick. cbv zeta. cbn.
  rewrite Hoff, Hnone. cbn.
  eexists. split; [reflexivity |]. split; [| split; [exact Hdest | eexists; reflexivity]].
  rewrite find_app_later.
  - destruct (ltb _ 20 && _); cbn.
    + destruct (Nat.eqb_spec (nextTimerId w) (S (nextTimerId w))); [lia |].
      rewrite Nat.eqb_refl. reflexivity.
    + rewrite Nat.eqb_refl. reflexivity.
  - intros t Hin. apply Hwf in Hin. apply Nat.eqb_neq.
    destruct (ltb _ 20 && _); lia.
Qed.

(** Stopping clears a recalculation whose timer has not fired yet. *)
Lemma stopNavigation_clears_pending (id : nat) (w : World) :
  recalculationTimeout w = Some id ->
  recalculationTimeout (stopNavigation w) = None /\
  pendingTimer id (stopNavigation w) = None.
Proof.
  intros Hsome. unfold stopNavigation, pendingTimer, showToast, emit, clearTimeout.
  cbn. rewrite Hsome. cbn. split; [reflexivity |].
  induction (timers w) as [| t rest IH]; cbn; [reflexivity |].
  destruct (Nat.eqb (tid t) id) eqn:Hid; cbn; [exact IH |].
  rewrite Hid. exact IH.
Qed.

(** * The dashboard's position tracker *)

Lemma leb_true (x y : R) : x <= y -> leb x y = true.
Proof. intros H. unfold leb. destruct (Rle_dec x y); [reflexivity | contradiction]. Qed.

Lemma leb_false (x y : R) : y < x -> leb x y = false.
Proof. intros H. unfold leb. destruct (Rle_dec x y); [lra | reflexivity]. Qed.

(** The dashboard measures in kilometres what the navigation measures in
    metres. *)
Lemma dashboard_distance_in_km (lat1 lng1 lat2 lng2 : R) :
  RoutingDashboard.calculateDistance lat1 lng1 lat2 lng2 =
  calculateDistance lat1 lng1 lat2 lng2 / 1000.
Proof.
  unfold RoutingDashboard.calculateDistance, calculateDistance,
    RoutingDashboard.toRadians.
  cbv zeta.
  replace ((lat2 - lat1) * (Math.PI / 180) / 2)
    with ((lat2 - lat1) * Math.PI / 180 / 2) by field.
  replace ((lng2 - lng1) * (Math.PI / 180) / 2)
    with ((lng2 - lng1) * Math.PI / 180 / 2) by field.
  replace (lat1 * (Math.PI / 180)) with (lat1 * Math.PI / 180) by field.
  replace (lat2 * (Math.PI / 180)) with (lat2 * Math.PI / 180) by field.
  field.
Qed.

(** Along the equator, 0.01 degrees are more than a kilometre. *)
Lemma dashboard_distance_moved :
  1 <= RoutingDashboard.calculateDistance 0 0 0 0.01.
Proof.
  rewrite dashboard_distance_in_km, calculateDistance_equator.
  - replace (0.01 - 0) with 0.01 by lra. rewrite Rabs_pos_eq by lra.
    pose proof (arc_bounds 0.01). lra.
  - replace (0.01 - 0) with 0.01 by lra. rewrite Rabs_pos_eq by lra. lra.
Qed.

Lemma dashboard_distance_same (lat lng : R) :
  RoutingDashboard.calculateDistance lat lng lat lng = 0.
Proof. rewrite dashboard_distance_in_km, calculateDistance_same. lra. Qed.

(** ** One sample *)

(** Without a position yet, [updateCurrentPosition] stores the sample. *)
Lemma updateCurrentPosition_first (now : R) (position : Geolocation.Position)
    (d : RoutingDashboard.Dashboard) :
  RoutingDashboard.currentPosition d = None ->
  RoutingDashboard.currentPosition (RoutingDashboard.updateCurrentPosition now position d) =
    Some (RoutingDashboard.newPositionOf now position).
Proof.
  intros Hnone. unfold RoutingDashboard.updateCurrentPosition. cbv zeta.
  rewrite Hnone.
  destruct (RoutingDashboard.isNavigating _);
    destruct (ltb _ 100);
    destruct (RoutingDashboard.userLocationMarker _);
    destruct (RoutingDashboard.accuracyCircle _); reflexivity.
Qed.

(** Less than 2 m from the current position and no better: skipped. *)
Lemma updateCurrentPosition_skips (now : R) (position : Geolocation.Position)
    (current : Position) (d : RoutingDashboard.Dashboard) :
  RoutingDashboard.currentPosition d = Some current ->
  RoutingDashboard.calculateDistance (lat current) (lng current)
    (Geolocation.latitude position) (Geolocation.longitude position) < 0.002 ->
  accuracy current <= Geolocation.accuracy position ->
  RoutingDashboard.updateCurrentPosition now position d = d.
Proof.
  intros Hsome Hnear Hworse. unfold RoutingDashboard.updateCurrentPosition. cbv zeta.
  rewrite Hsome. cbn [RoutingDashboard.newPositionOf lat lng accuracy].
  rewrite (ltb_true _ _ Hnear). unfold geb. rewrite (leb_true _ _ Hworse).
  reflexivity.
Qed.

(** At 2 m or more from the current position, or better than it: stored. *)
Lemma updateCurrentPosition_stores (now : R) (position : Geolocation.Position)
    (current : Position) (d : RoutingDashboard.Dashboard) :
  RoutingDashboard.currentPosition d = Some current ->
  0.002 <= RoutingDashboard.calculateDistance (lat current) (lng current)
             (Geolocation.latitude position) (Geolocation.longitude position) \/
  Geolocation.accuracy position < accuracy current ->
  RoutingDashboard.currentPosition (RoutingDashboard.updateCurrentPosition now position d) =
    Some (RoutingDashboard.newPositionOf now position).
Proof.
  intros Hsome Hok. unfold RoutingDashboard.updateCurrentPosition. cbv zeta.
  rewrite Hsome. cbn [RoutingDashboard.newPositionOf lat lng accuracy].
  assert (Hskip : ltb (RoutingDashboard.calculateDistance (lat current) (lng current)
                         (Geolocation.latitude position) (Geolocation.longitude position))
                    0.002
                  && geb (Geolocation.accuracy position) (accuracy current) = false).
  { destruct Hok as [Hfar | Hbetter].
    - rewrite ltb_false by exact Hfar. reflexivity.
    - unfold geb. rewrite (leb_false _ _ Hbetter). apply andb_false_r. }
  rewrite Hskip.
  destruct (RoutingDashboard.isNavigating _);
    destruct (ltb _ 100);
    destruct (RoutingDashboard.userLocationMarker _);
    destruct (RoutingDashboard.accuracyCircle _); reflexivity.
Qed.

(** Over the ceiling with a position already there: the callback skips. *)
Lemma onWatchPosition_skips (now : R) (position : Geolocation.Position)
    (current : Position) (d : RoutingDashboard.Dashboard) :
  RoutingDashboard.currentPosition d = Some current ->
  100 < Geolocation.accuracy position ->
  RoutingDashboard.onWatchPosition now position d = d.
Proof.
  intros Hsome Hover. unfold RoutingDashboard.onWatchPosition.
  rewrite Hsome, (leb_false _ _ Hover). reflexivity.
Qed.

(** Otherwise the callback passes the sample on. *)
Lemma onWatchPosition_passes (now : R) (position : Geolocation.Position)
    (d : RoutingDashboard.Dashboard) :
  RoutingDashboard.currentPosition d = None \/ Geolocation.accuracy position <= 100 ->
  RoutingDashboard.onWatchPosition now position d =
  RoutingDashboard.updateCurrentPosition now position d.
Proof.
  intros [Hnone | Hfine]; unfold RoutingDashboard.onWatchPosition.
  - rewrite Hnone. reflexivity.
  - rewrite (leb_true _ _ Hfine), orb_true_r. reflexivity.
Qed.

(** ** The position tracker *)

(** C2, as amended.  The tracker is the callback of the dashboard's
    geolocation watch with [updateCurrentPosition].  Without a current
    position every sample is accepted.  With one, a sample over the ceiling
    of 100 m is rejected whatever the accuracy of the position kept, and so
    is a sample less than 2 m (0.002 km) away whose accuracy is not strictly
    better; a rejected sample changes nothing at all.  Every other sample
    becomes the current position. *)
Theorem tracker_filters_by_ceiling_and_displacement (now : R)
    (position : Geolocation.Position) (d : RoutingDashboard.Dashboard) :
  (RoutingDashboard.currentPosition d = None ->
   RoutingDashboard.currentPosition (RoutingDashboard.onWatchPosition now position d) =
     Some (RoutingDashboard.newPositionOf now position)) /\
  (forall current : Position,
     RoutingDashboard.currentPosition d = Some current ->
     (100 < Geolocation.accuracy position ->
      RoutingDashboard.onWatchPosition now position d = d) /\
     (RoutingDashboard.calculateDistance (lat current) (lng current)
        (Geolocation.latitude position) (Geolocation.longitude position) < 0.002 ->
      accuracy current <= Geolocation.accuracy position ->
      RoutingDashboard.onWatchPosition now position d = d) /\
     (Geolocation.accuracy position <= 100 ->
      0.002 <= RoutingDashboard.calculateDistance (lat current) (lng current)
                 (Geolocation.latitude position) (Geolocation.longitude position) \/
      Geolocation.accuracy position < accuracy current ->
      RoutingDashboard.currentPosition (RoutingDashboard.onWatchPosition now position d) =
        Some (RoutingDashboard.newPositionOf now position))).
Proof.
  split.
  - intros Hnone. rewrite onWatchPosition_passes by (left; exact Hnone).
    apply updateCurrentPosition_first. exact Hnone.
  - intros current Hsome. split; [| split].
    + intros Hover. apply (onWatchPosition_skips now position current d Hsome Hover).
    + intros Hnear Hworse.
      destruct (Rle_lt_dec (Geolocation.accuracy position) 100) as [Hfine | Hover].
      * rewrite onWatchPosition_passes by (right; exact Hfine).
        apply (updateCurrentPosition_skips now position current d Hsome Hnear Hworse).
      * apply (onWatchPosition_skips now position current d Hsome Hover).
    + intros Hfine Hok. rewrite onWatchPosition_passes by (right; exact Hfine).
      apply (updateCurrentPosition_stores now position current d Hsome Hok).
Qed.

(** The cases of the theorem on a dashboard that holds [fineFix]: a fix of
    500 m is skipped, a fix at the same place that is no better is skipped,
    a better one at the same place and one a kilometre away are stored; and
    the first fix of a session is stored though its accuracy is 500 m. *)
Lemma tracker_filters_by_ceiling_and_displacement_example :
  RoutingDashboard.currentPosition
    (RoutingDashboard.onWatchPosition 0 coarseFix RoutingDashboard.initial) =
    Some (RoutingDashboard.newPositionOf 0 coarseFix) /\
  RoutingDashboard.onWatchPosition 1000 coarseFix tracked = tracked /\
  RoutingDashboard.onWatchPosition 1000 sameFix tracked = tracked /\
  RoutingDashboard.currentPosition (RoutingDashboard.onWatchPosition 1000 finerFix tracked) =
    Some (RoutingDashboard.newPositionOf 1000 finerFix) /\
  RoutingDashboard.currentPosition (RoutingDashboard.onWatchPosition 1000 movedFix tracked) =
    Some (RoutingDashboard.newPositionOf 1000 movedFix).
Proof.
  split; [| split; [| split; [| split]]].
  - apply (proj1 (tracker_filters_by_ceiling_and_displacement 0 coarseFix
                    RoutingDashboard.initial)).
    reflexivity.
  - apply (proj1 (proj2 (tracker_filters_by_ceiling_and_displacement 1000 coarseFix tracked)
                    (RoutingDashboard.newPositionOf 0 fineFix) eq_refl)).
    cbn. lra.
  - apply (proj1 (proj2 (proj2 (tracker_filters_by_ceiling_and_displacement 1000 sameFix
                                  tracked)
                           (RoutingDashboard.newPositionOf 0 fineFix) eq_refl))).
    + cbn. rewrite dashboard_distance_same. lra.
    + cbn. lra.
  - apply (proj2 (proj2 (proj2 (tracker_filters_by_ceiling_and_displacement 1000 finerFix
                                  tracked)
                           (RoutingDashboard.newPositionOf 0 fineFix) eq_refl))).
    + cbn. lra.
    + right. cbn. lra.
  - apply (proj2 (proj2 (proj2 (tracker_filters_by_ceiling_and_displacement 1000 movedFix
                                  tracked)
                           (RoutingDashboard.newPositionOf 0 fineFix) eq_refl))).
    + cbn. lra.
    + left. cbn. pose proof dashboard_distance_moved. lra.
Defined.

(** C2, as stated, fails.  The first fix of a session, of 500 m accuracy, is
    accepted.  The next one is of 200 m accuracy, more than a kilometre away:
    it is over the ceiling, but no sample of a better accuracy exists, so it
    would be accepted; the callback skips it, and the first fix stays the
    current position. *)
Lemma sample_over_ceiling_is_rejected_without_a_better_one :
  RoutingDashboard.currentPosition
    (RoutingDashboard.onWatchPositions [(0, coarseFix)] RoutingDashboard.initial) =
    Some (RoutingDashboard.newPositionOf 0 coarseFix) /\
  100 < Geolocation.accuracy lessCoarseFix /\
  Geolocation.accuracy lessCoarseFix < Geolocation.accuracy coarseFix /\
  0.002 <= RoutingDashboard.calculateDistance
             (Geolocation.latitude coarseFix) (Geolocation.longitude coarseFix)
             (Geolocation.latitude lessCoarseFix) (Geolocation.longitude lessCoarseFix) /\
  RoutingDashboard.onWatchPositions [(0, coarseFix); (1000, lessCoarseFix)]
    RoutingDashboard.initial =
  RoutingDashboard.onWatchPositions [(0, coarseFix)] RoutingDashboard.initial /\
  RoutingDashboard.currentPosition
    (RoutingDashboard.onWatchPositions [(0, coarseFix); (1000, lessCoarseFix)]
       RoutingDashboard.initial) =
    Some (RoutingDashboard.newPositionOf 0 coarseFix).
Proof.
  assert (Hfirst : RoutingDashboard.currentPosition
                     (RoutingDashboard.onWatchPosition 0 coarseFix RoutingDashboard.initial) =
                   Some (RoutingDashboard.newPositionOf 0 coarseFix)).
  { rewrite onWatchPosition_passes by (left; reflexivity).
    apply updateCurrentPosition_first. reflexivity. }
  assert (Hsecond : RoutingDashboard.onWatchPosition 1000 lessCoarseFix
                      (RoutingDashboard.onWatchPosition 0 coarseFix RoutingDashboard.initial) =
                    RoutingDashboard.onWatchPosition 0 coarseFix RoutingDashboard.initial).
  { apply (onWatchPosition_skips 1000 lessCoarseFix _ _ Hfirst). cbn. lra. }
  split; [exact Hfirst |].
  split; [cbn; lra |].
  split; [cbn; lra |].
  split; [cbn; pose proof dashboard_distance_moved; lra |].
  split.
  - cbn [RoutingDashboard.onWatchPositions fold_left fst snd]. exact Hsecond.
  - cbn [RoutingDashboard.onWatchPositions fold_left fst snd]. rewrite Hsecond.
    exact Hfirst.
Qed.

(** ** Step advancement *)

(** C10.  One location update moves the current step index by at most one,
    wherever the position is: [advanceToNextStep] is called at most once in
    [updateNavigation], so maneuver locations that are all within 20 m are
    passed one update at a time. *)
Theorem step_index_moves_by_at_most_one (position : Geolocation.Position) (w : World) :
  currentStepIndex (handleLocationUpdate position w) = currentStepIndex w \/
  currentStepIndex (handleLocationUpdate position w) = S (currentStepIndex w).
Proof.
  by_cases position w; cbn; auto.
  destruct (ltb (distanceToStep position currentStep) 20); auto.
Qed.

Lemma not_arrival_toast (new : list Effect) :
  Forall (fun e => match e with Toast _ kind => kind = "warning" | _ => True end) new ->
  ~ In (Toast "You have arrived!" "success") new.
Proof.
  intros Hall Hin. rewrite Forall_forall in Hall. apply Hall in Hin. discriminate.
Qed.

(** C3.  On a location update while navigating, when the distance to the
    current step's maneuver location is below 20 m the step index grows by
    one.  If the new index is past the last step the arrival is declared (the
    arrival toast, and the timer that stops navigation 3 s later); otherwise
    no arrival is declared and navigation stays active. *)
Theorem close_to_maneuver_advances (position : Geolocation.Position) (currentStep : Step)
    (w : World) :
  isNavigating w = true ->
  nth_error (steps w) (currentStepIndex w) = Some currentStep ->
  distanceToStep position currentStep < 20 ->
  currentStepIndex (handleLocationUpdate position w) = S (currentStepIndex w) /\
  exists new,
    log (handleLocationUpdate position w) = (new ++ log w)%list /\
    ((List.length (steps w) <= S (currentStepIndex w))%nat ->
     In (Toast "You have arrived!" "success") new /\
     In (mkTimer (nextTimerId w) (clock w + 3000) CbStopNavigation)
       (timers (handleLocationUpdate position w))) /\
    ((S (currentStepIndex w) < List.length (steps w))%nat ->
     ~ In (Toast "You have arrived!" "success") new /\
     isNavigating (handleLocationUpdate position w) = true /\
     exists nextStep,
       nth_error (steps (handleLocationUpdate position w))
         (currentStepIndex (handleLocationUpdate position w)) = Some nextStep).
Proof.
  intros Hnav Hstep Hclose.
  rewrite (handleLocationUpdate_tick position currentStep w Hnav Hstep).
  unfold tick. cbv zeta. cbn.
  rewrite (ltb_true _ 20 Hclose). cbn.
  split; [reflexivity |].
  eexists. split; [rewrite !app_assoc; reflexivity |]. split.
  - intros Hlast. apply nth_error_None in Hlast. rewrite Hlast. cbn. split.
    + apply in_or_app. left. apply in_or_app. right. left. reflexivity.
    + apply in_or_app. right. left. reflexivity.
  - intros Hmore. apply nth_error_Some in Hmore.
    destruct (nth_error (steps w) (S (currentStepIndex w))) as [nextStep |] eqn:Hnext;
      [| contradiction].
    split; [| split; [assumption | exists nextStep; reflexivity]].
    apply not_arrival_toast.
    repeat (apply Forall_app; split).
    + destruct (offRoute position w && _); repeat constructor.
    + repeat constructor.
    + destruct (ltb _ 200 && _); repeat constructor.
Qed.

(** C3 at the start of the example road. *)
Lemma close_to_maneuver_advances_example :
  currentStepIndex (handleLocationUpdate atDeparture started) = S (currentStepIndex started) /\
  exists new,
    log (handleLocationUpdate atDeparture started) = (new ++ log started)%list /\
    ((List.length (steps started) <= S (currentStepIndex started))%nat ->
     In (Toast "You have arrived!" "success") new /\
     In (mkTimer (nextTimerId started) (clock started + 3000) CbStopNavigation)
       (timers (handleLocationUpdate atDeparture started))) /\
    ((S (currentStepIndex started) < List.length (steps started))%nat ->
     ~ In (Toast "You have arrived!" "success") new /\
     isNavigating (handleLocationUpdate atDeparture started) = true /\
     exists nextStep,
       nth_error (steps (handleLocationUpdate atDeparture started))
         (currentStepIndex (handleLocationUpdate atDeparture started)) = Some nextStep).
Proof.
  apply (close_to_maneuver_advances atDeparture departStep started).
  - reflexivity.
  - reflexivity.
  - rewrite atDeparture_departStep. lra.
Defined.

(** ** Remaining distance *)

(** What one location update makes of [remainingDistance]. *)
Lemma remainingDistance_updated (position : Geolocation.Position) (currentStep : Step)
    (w : World) :
  isNavigating w = true ->
  nth_error (steps w) (currentStepIndex w) = Some currentStep ->
  remainingDistance (handleLocationUpdate position w) =
    distanceFromStart currentStep + distance currentStep
    - calculateDistanceAlongRoute (Geolocation.latitude position)
        (Geolocation.longitude position) (routeGeometry w).
Proof.
  intros Hnav Hstep.
  rewrite (handleLocationUpdate_tick position currentStep w Hnav Hstep).
  reflexivity.
Qed.

(** C4, as amended.  On every location update handled while navigating with a
    current step, the remaining distance becomes the distance from the start
    of the route to the end of the current step, minus the distance along the
    route; the route's total distance is not used and nothing is clamped. *)
Theorem remaining_distance_is_recomputed (now : nat) (position : Geolocation.Position)
    (currentStep : Step) (w w' : World) :
  isNavigating w = true ->
  nth_error (steps w) (currentStepIndex w) = Some currentStep ->
  step now (LocationUpdate position) w = Some w' ->
  remainingDistance w' =
    distanceFromStart currentStep + distance currentStep
    - calculateDistanceAlongRoute (Geolocation.latitude position)
        (Geolocation.longitude position) (routeGeometry w).
Proof.
  intros Hnav Hstep Hrun. unfold step in Hrun.
  destruct (now <? clock w)%nat; [discriminate |].
  injection Hrun as <-.
  apply (remainingDistance_updated position currentStep (set_clock now w)); assumption.
Qed.

(** C4 at the end of the example road. *)
Lemma remaining_distance_is_recomputed_example :
  remainingDistance (handleLocationUpdate atRouteEnd (set_clock 0 started)) =
    distanceFromStart departStep + distance departStep
    - calculateDistanceAlongRoute (Geolocation.latitude atRouteEnd)
        (Geolocation.longitude atRouteEnd) (routeGeometry started).
Proof.
  apply (remaining_distance_is_recomputed 0 atRouteEnd departStep started);
    reflexivity.
Defined.

(** C4, as stated, fails.  With the traveler at the end of the example road
    while the first step is still the current one, the remaining distance is
    negative: it is not clamped, and it is below the total distance minus the
    distance along the route clamped at zero. *)
Lemma remaining_distance_goes_negative :
  remainingDistance (handleLocationUpdate atRouteEnd started) < 0 /\
  remainingDistance (handleLocationUpdate atRouteEnd started) <
    Rmax 0 (totalDistance started
            - calculateDistanceAlongRoute (Geolocation.latitude atRouteEnd)
                (Geolocation.longitude atRouteEnd) (routeGeometry started)).
Proof.
  assert (Hneg : remainingDistance (handleLocationUpdate atRouteEnd started) < 0).
  { rewrite (remainingDistance_updated atRouteEnd departStep started) by reflexivity.
    change (0 + 556 - calculateDistanceAlongRoute 0 0.01 road < 0).
    rewrite alongRoute_atRouteEnd. pose proof (arc_bounds 0.01). lra. }
  split; [exact Hneg |].
  eapply Rlt_le_trans; [exact Hneg | apply Rmax_l].
Qed.

(** ** Step advancement and the off-route check *)

(** C5, as amended.  When the position is within 20 m of the current step's
    maneuver location and off the route, with no recalculation pending, the
    same location update both advances the step and starts the off-route
    handling: the toast, and the timer of the recalculation. *)
Theorem advancing_does_not_skip_off_route (position : Geolocation.Position)
    (currentStep : Step) (w : World) :
  isNavigating w = true ->
  nth_error (steps w) (currentStepIndex w) = Some currentStep ->
  distanceToStep position currentStep < 20 ->
  offRoute position w = true ->
  recalculationTimeout w = None ->
  currentStepIndex (handleLocationUpdate position w) = S (currentStepIndex w) /\
  exists id new,
    recalculationTimeout (handleLocationUpdate position w) = Some id /\
    In (mkTimer id (clock w + 3000) CbRecalculate)
      (timers (handleLocationUpdate position w)) /\
    log (handleLocationUpdate position w) = (new ++ log w)%list /\
    In (Toast "Recalculating route..." "warning") new.
Proof.
  intros Hnav Hstep Hclose Hoff Hnone.
  rewrite (handleLocationUpdate_tick position currentStep w Hnav Hstep).
  unfold tick. cbv zeta. cbn.
  rewrite (ltb_true _ 20 Hclose), Hoff, Hnone. cbn.
  split; [reflexivity |].
  eexists. eexists. split; [reflexivity |]. split; [| split].
  - apply in_or_app. right. apply in_or_app. right. left. reflexivity.
  - change (?a :: ?b :: ?rest)%list with ([a; b] ++ rest)%list.
    rewrite !app_assoc. reflexivity.
  - apply in_or_app. left. apply in_or_app. left. right. left. reflexivity.
Qed.

(** C5 at the turn of the example road, whose maneuver location is north of
    the road. *)
Lemma advancing_does_not_skip_off_route_example :
  currentStepIndex (handleLocationUpdate atTurn afterDeparture) =
    S (currentStepIndex afterDeparture) /\
  exists id new,
    recalculationTimeout (handleLocationUpdate atTurn afterDeparture) = Some id /\
    In (mkTimer id (clock afterDeparture + 3000) CbRecalculate)
      (timers (handleLocationUpdate atTurn afterDeparture)) /\
    log (handleLocationUpdate atTurn afterDeparture) = (new ++ log afterDeparture)%list /\
    In (Toast "Recalculating route..." "warning") new.
Proof.
  apply (advancing_does_not_skip_off_route atTurn turnStep afterDeparture).
  - rewrite afterDeparture_eq. reflexivity.
  - rewrite afterDeparture_eq. reflexivity.
  - rewrite atTurn_turnStep. lra.
  - apply atTurn_offRoute; rewrite afterDeparture_eq; reflexivity.
  - rewrite afterDeparture_eq. reflexivity.
Defined.

(** ** Off-route handling *)

(** C1, as amended.  While navigating with nothing pending, one sample off
    the route sets the recalculation going, and no later sample takes it
    back: whatever location updates follow, on the route or off it, the same
    timer stays pending; it cannot fire before 3 s have passed since the
    sample, and when it fires, the new route is requested from the position
    of that time to the destination.  (What does clear the timer is
    [stopNavigation]: see [stopNavigation_clears_pending].) *)
Theorem off_route_sample_commits_to_recalculation
    (now : nat) (position : Geolocation.Position)
    (later : list (nat * Geolocation.Position))
    (currentStep : Step) (dest : LatLng) (w : World) :
  wellFormed w ->
  isNavigating w = true ->
  nth_error (steps w) (currentStepIndex w) = Some currentStep ->
  recalculationTimeout w = None ->
  destinationMarker w = Some dest ->
  offRoute position w = true ->
  ascending (clock w) (now :: map fst later) = true ->
  exists id w2 pos,
    run ((now, LocationUpdate position) :: locationUpdates later) w = Some w2 /\
    recalculationTimeout w2 = Some id /\
    currentPosition w2 = Some pos /\
    (forall t, (t < now + 3000)%nat -> step t (TimerFires id) w2 = None) /\
    (forall t, (clock w2 <= t)%nat -> (now + 3000 <= t)%nat ->
       exists w3,
         step t (TimerFires id) w2 = Some w3 /\
         log w3 =
           RouteRequest (nextRequestId w2) (lat pos) (lng pos)
             (markerLat dest) (markerLng dest)
           :: log w2).
Proof.
  intros Hwf Hnav Hstep Hnone Hdest Hoff Htimes.
  cbn in Htimes. apply andb_prop in Htimes as [Hnow Hrest].
  apply Nat.leb_le in Hnow.
  destruct (offRoute_sets_timer position currentStep dest (set_clock now w))
    as [id Hpending]; try assumption.
  change (clock (set_clock now w)) with now in Hpending.
  destruct (recalculationPending_run later id (now + 3000) dest
              (handleLocationUpdate position (set_clock now w)) Hpending)
    as (w2 & Hrun & Hpending2).
  { destruct (handleLocationUpdate_frame position (set_clock now w))
      as (_ & _ & _ & _ & _ & Hclock & _).
    rewrite Hclock. exact Hrest. }
  pose proof Hpending2 as (Htimeout & _ & _ & pos & Hpos).
  exists id, w2, pos. split; [| split; [exact Htimeout | split; [exact Hpos | split]]].
  - cbn [run]. rewrite step_locationUpdate by exact Hnow. exact Hrun.
  - intros t Hearly. eapply recalculation_not_before_due; eassumption.
  - intros t Hclock Hdue.
    destruct (recalculation_fires id (now + 3000) dest pos w2 t Hpending2 Hpos Hclock Hdue)
      as (w3 & Hfire & Hlog & _).
    exists w3. split; assumption.
Qed.

Lemma started_wellFormed : wellFormed started.
Proof. intros t Hin. rewrite started_eq in Hin. destruct Hin. Qed.

(** C1 on the example road: off the route at time 0, back on it at 1 s. *)
Lemma off_route_sample_commits_to_recalculation_example :
  exists id w2 pos,
    run ((0%nat, LocationUpdate pastRouteEnd) :: locationUpdates [(1000%nat, onRoad)])
      started = Some w2 /\
    recalculationTimeout w2 = Some id /\
    currentPosition w2 = Some pos /\
    (forall t, (t < 0 + 3000)%nat -> step t (TimerFires id) w2 = None) /\
    (forall t, (clock w2 <= t)%nat -> (0 + 3000 <= t)%nat ->
       exists w3,
         step t (TimerFires id) w2 = Some w3 /\
         log w3 =
           RouteRequest (nextRequestId w2) (lat pos) (lng pos)
             (markerLat (mkLatLng 0 0.01)) (markerLng (mkLatLng 0 0.01))
           :: log w2).
Proof.
  apply (off_route_sample_commits_to_recalculation 0 pastRouteEnd [(1000%nat, onRoad)]
           departStep (mkLatLng 0 0.01) started).
  - exact started_wellFormed.
  - reflexivity.
  - reflexivity.
  - reflexivity.
  - reflexivity.
  - apply pastRouteEnd_offRoute; reflexivity.
  - reflexivity.
Defined.

(** C1, as stated, fails.  On the example road the sample at time 0 is off the
    route, the sample at 1 s is back on the road, and at 3 s the timer fires
    all the same: the new route is requested, from the road to the
    destination. *)
Lemma recalculation_fires_after_rejoining :
  offRoute pastRouteEnd started = true /\
  offRoute onRoad leftRoute = false /\
  exists w,
    run [(0%nat, LocationUpdate pastRouteEnd);
         (1000%nat, LocationUpdate onRoad);
         (3000%nat, TimerFires 1)] started = Some w /\
    log w = RouteRequest 0 0 0.005 0 0.01 :: log leftRoute /\
    inflight w = [0%nat].
Proof.
  split; [apply pastRouteEnd_offRoute; reflexivity |].
  split; [apply onRoad_onRoute; rewrite leftRoute_eq; reflexivity |].
  cbn [run]. rewrite step_locationUpdate by (rewrite started_eq; cbn; lia).
  fold leftRoute.
  rewrite step_locationUpdate by (rewrite leftRoute_eq; cbn; lia).
  fold rejoined. rewrite rejoined_eq. run_events.
  eexists. split; [reflexivity |]. split; reflexivity.
Qed.

(** C5, as stated, fails.  At the turn of the example road, whose maneuver
    location is north of the road, the position is within 20 m of the
    maneuver location and off the route; the one location update advances the
    step and sets the recalculation going. *)
Lemma advance_and_recalculation_on_one_update :
  currentStepIndex afterDeparture = 1%nat /\
  recalculationTimeout afterDeparture = None /\
  distanceToStep atTurn turnStep < 20 /\
  offRoute atTurn afterDeparture = true /\
  currentStepIndex afterTurn = 2%nat /\
  recalculationTimeout afterTurn = Some 1%nat /\
  timers afterTurn = [mkTimer 1 3000 CbRecalculate] /\
  log afterTurn =
    Speak (Plain "Recalculating route")
    :: Toast "Recalculating route..." "warning"
    :: Speak (Plain "You have arrived at your destination")
    :: log afterDeparture.
Proof.
  rewrite afterTurn_eq.
  split; [rewrite afterDeparture_eq; reflexivity |].
  split; [rewrite afterDeparture_eq; reflexivity |].
  split; [rewrite atTurn_turnStep; lra |].
  split; [apply atTurn_offRoute; rewrite afterDeparture_eq; reflexivity |].
  repeat split.
Qed.

(** ** Stopping while a recalculation is in flight *)

(** C7 fails on the code.  On the example road: the traveler leaves the route
    at time 0, the timer fires at 3 s and the route is requested; navigation
    is stopped at 3.5 s; the answer arrives at 4 s.  Stopping cancels a
    recalculation whose timer has not fired ([stopNavigation_clears_pending]),
    but here the request is in flight and its answer is applied to the
    stopped navigation: steps, geometry and distances are replaced and the
    route is drawn again, navigation staying stopped. *)
Theorem recalculation_result_is_applied_after_stop :
  exists stopped w,
    run [(0%nat, LocationUpdate pastRouteEnd);
         (3000%nat, TimerFires 1);
         (3500%nat, StopPressed)] started = Some stopped /\
    isNavigating stopped = false /\
    recalculationTimeout stopped = None /\
    timers stopped = [] /\
    inflight stopped = [0%nat] /\
    routeGeometry stopped = road /\
    step 4000 (RouteResponse 0 (Some otherRoute)) stopped = Some w /\
    isNavigating w = false /\
    routeGeometry w = Osrm.geometry otherRoute /\
    steps w = extractSteps (Osrm.steps otherRoute) 0 /\
    totalDistance w = Osrm.routeDistance otherRoute /\
    log w =
      Toast "Route recalculated" "success"
      :: DrawRoute (Osrm.geometry otherRoute)
      :: log stopped.
Proof.
  cbn [run]. rewrite step_locationUpdate by (rewrite started_eq; cbn; lia).
  fold leftRoute. rewrite leftRoute_eq. run_events.
  eexists. eexists. split; [reflexivity |].
  run_events. repeat split.
Qed.

(** ** Announcements *)

Lemma differsFromLastSpoken_false (text : string) (w : World) :
  differsFromLastSpoken text w = false <-> lastSpokenInstruction w = Some text.
Proof.
  unfold differsFromLastSpoken. destruct (lastSpokenInstruction w) as [spoken |].
  - destruct (String.eqb_spec text spoken) as [-> | Hneq]; cbn.
    + split; reflexivity.
    + split; [discriminate | intros [= ->]; contradiction].
  - split; discriminate.
Qed.

(** Once the distance is below 200 m, the update leaves the current step's
    instruction as the last spoken one. *)
Lemma tick_currentIsLastSpoken (position : Geolocation.Position) (currentStep : Step)
    (w : World) :
  nth_error (steps w) (currentStepIndex w) = Some currentStep ->
  distanceToStep position currentStep < 200 ->
  currentIsLastSpoken (tick position currentStep w).
Proof.
  intros Hstep Hnear. unfold currentIsLastSpoken, tick. cbv zeta. cbn.
  rewrite (ltb_true _ 200 Hnear). cbn.
  destruct (ltb (distanceToStep position currentStep) 20).
  - intros step Hnext. rewrite Hnext. reflexivity.
  - intros step Hsame. rewrite Hstep in Hsame. injection Hsame as <-.
    destruct (differsFromLastSpoken (instruction currentStep) w) eqn:Hdiffers;
      [reflexivity |].
    apply differsFromLastSpoken_false. exact Hdiffers.
Qed.

(** While the current step's instruction is the last spoken one, a location
    update says no approach announcement, and leaves it so. *)
Lemma handleLocationUpdate_silent (position : Geolocation.Position) (w : World) :
  currentIsLastSpoken w ->
  currentIsLastSpoken (handleLocationUpdate position w) /\
  exists new,
    log (handleLocationUpdate position w) = (new ++ log w)%list /\
    filter isApproach new = [].
Proof.
  intros Hlast. by_cases position w.
  - split; [exact Hlast | exists []; split; reflexivity].
  - unfold arriveAtDestination, setTimeout, showToast, speakInstruction, emit.
    split; [exact Hlast |].
    exists [Toast "You have arrived!" "success"; Speak (Plain arrivalText)].
    split; reflexivity.
  - pose proof (Hlast currentStep Hstep) as Hspoken.
    apply differsFromLastSpoken_false in Hspoken.
    unfold currentIsLastSpoken, tick. cbv zeta. cbn.
    rewrite Hspoken, andb_false_r. split.
    + destruct (ltb (distanceToStep position currentStep) 20).
      * intros step Hnext. rewrite Hnext. reflexivity.
      * exact Hlast.
    + eexists. split; [rewrite !app_assoc; reflexivity |].
      rewrite !filter_app.
      destruct (offRoute position w && _);
        destruct (ltb (distanceToStep position currentStep) 20);
        try destruct (nth_error (steps w) (S (currentStepIndex w)));
        reflexivity.
Qed.

Lemma updates_silent (later : list Geolocation.Position) :
  forall w,
    currentIsLastSpoken w ->
    exists new,
      log (fold_left (fun w position => handleLocationUpdate position w) later w) =
        (new ++ log w)%list /\
      filter isApproach new = [].
Proof.
  induction later as [| position later IH]; intros w Hlast.
  - exists []. split; reflexivity.
  - destruct (handleLocationUpdate_silent position w Hlast) as (Hlast' & new1 & Hlog1 & Hnone1).
    destruct (IH _ Hlast') as (new2 & Hlog2 & Hnone2).
    exists (new2 ++ new1)%list. cbn [fold_left]. split.
    + rewrite Hlog2, Hlog1, app_assoc. reflexivity.
    + rewrite filter_app, Hnone1, Hnone2. reflexivity.
Qed.

(** C6, as amended.  The announcement of [updateNavigationUI] is tracked by
    the text of the instruction last spoken, not by the step index.  On a
    location update with the distance to the current step's maneuver location
    below 200 m, it is spoken if and only if the current instruction differs
    from the last spoken one, and at most once; a step that becomes current
    by advancement on that update is announced then, by its plain
    instruction.  On the location updates that follow, however many and
    wherever they are, for the same step and for later ones, no such
    announcement is spoken again (until a recalculated route or a stop resets
    the last spoken instruction). *)
Theorem approach_announcement_follows_last_spoken_text
    (position : Geolocation.Position) (later : list Geolocation.Position)
    (currentStep : Step) (w : World) :
  isNavigating w = true ->
  nth_error (steps w) (currentStepIndex w) = Some currentStep ->
  distanceToStep position currentStep < 200 ->
  exists new1 new2,
    log (handleLocationUpdate position w) = (new1 ++ log w)%list /\
    filter isApproach new1 =
      (if differsFromLastSpoken (instruction currentStep) w
       then [Speak (Approach (distanceToStep position currentStep)
                      (instruction currentStep))]
       else []) /\
    (forall nextStep,
       distanceToStep position currentStep < 20 ->
       nth_error (steps w) (S (currentStepIndex w)) = Some nextStep ->
       In (Speak (Plain (instruction nextStep))) new1) /\
    log (fold_left (fun w position => handleLocationUpdate position w) later
           (handleLocationUpdate position w)) =
      (new2 ++ log (handleLocationUpdate position w))%list /\
    filter isApproach new2 = [].
Proof.
  intros Hnav Hstep Hnear.
  destruct (updates_silent later (handleLocationUpdate position w))
    as (new2 & Hlog2 & Hnone2).
  { rewrite (handleLocationUpdate_tick position currentStep w Hnav Hstep).
    apply tick_currentIsLastSpoken; assumption. }
  eexists. exists new2.
  split; [| split; [| split; [| split; [exact Hlog2 | exact Hnone2]]]].
  - rewrite (handleLocationUpdate_tick position currentStep w Hnav Hstep).
    unfold tick. cbv zeta. cbn. rewrite !app_assoc. reflexivity.
  - rewrite (ltb_true _ 200 Hnear). cbn. rewrite !filter_app.
    destruct (offRoute position w && _);
      destruct (ltb (distanceToStep position currentStep) 20);
      try destruct (nth_error (steps w) (S (currentStepIndex w)));
      destruct (differsFromLastSpoken (instruction currentStep) w);
      reflexivity.
  - intros nextStep Hclose Hnext. rewrite (ltb_true _ 20 Hclose), Hnext.
    apply in_or_app. left. apply in_or_app. right. left. reflexivity.
Qed.

(** C6 on the example road: the first fix at the start, then three on the
    road south of the turn. *)
Lemma approach_announcement_follows_last_spoken_text_example :
  exists new1 new2,
    log (handleLocationUpdate atDeparture started) = (new1 ++ log started)%list /\
    filter isApproach new1 =
      (if differsFromLastSpoken (instruction departStep) started
       then [Speak (Approach (distanceToStep atDeparture departStep)
                      (instruction departStep))]
       else []) /\
    (forall nextStep,
       distanceToStep atDeparture departStep < 20 ->
       nth_error (steps started) (S (currentStepIndex started)) = Some nextStep ->
       In (Speak (Plain (instruction nextStep))) new1) /\
    log (fold_left (fun w position => handleLocationUpdate position w)
           [onRoad; onRoad; onRoad] (handleLocationUpdate atDeparture started)) =
      (new2 ++ log (handleLocationUpdate atDeparture started))%list /\
    filter isApproach new2 = [].
Proof.
  apply (approach_announcement_follows_last_spoken_text atDeparture
           [onRoad; onRoad; onRoad] departStep started).
  - reflexivity.
  - reflexivity.
  - rewrite atDeparture_departStep. lra.
Defined.

(** C6, as stated, fails.  On the example road the turn becomes the current
    step at the first fix.  At the next fix the traveler is about 111 m from
    the turn's maneuver location, below 200 m for the first time while the
    turn is current, and nothing is said: the turn was announced when it
    became current, and the only approach announcement there ever was is the
    one of the departure. *)
Lemma turn_gets_no_approach_announcement :
  currentStepIndex afterDeparture = 1%nat /\
  nth_error (steps afterDeparture) 1 = Some turnStep /\
  (20 <= distanceToStep onRoad turnStep /\ distanceToStep onRoad turnStep < 200) /\
  currentStepIndex approachingTurn = 1%nat /\
  log approachingTurn = log afterDeparture /\
  filter isApproach (log approachingTurn) =
    [Speak (Approach 0 "Head east onto Equator Road")].
Proof.
  rewrite approachingTurn_eq, afterDeparture_eq, onRoad_turnStep.
  pose proof (arc_bounds 0.001).
  repeat split; lra.
Qed.

(** ** Map matching *)

(** The scan of [calculateDistanceToRoute] keeps the minimum. *)
Lemma scan_minimum (lat lng : R) (segs : list (Coord * Coord)) :
  forall a : R,
    exists m,
      fold_left
        (fun minDistance '(point1, point2) =>
           Math.min minDistance
             (distanceToLineSegment lat lng
                (latOf point1) (lngOf point1) (latOf point2) (lngOf point2)))
        segs (Fin a) = Fin m /\
      m <= a /\
      (forall s, In s segs -> m <= segmentDistance lat lng s) /\
      (m = a \/ exists s, In s segs /\ m = segmentDistance lat lng s).
Proof.
  induction segs as [| [point1 point2] segs IH]; intros a.
  - exists a. cbn. repeat split; [lra | contradiction | left; reflexivity].
  - cbn [fold_left Math.min].
    destruct (IH (Rmin a (segmentDistance lat lng (point1, point2))))
      as (m & Hfold & Hle & Hall & Hsome).
    exists m. split; [exact Hfold |].
    pose proof (Rmin_l a (segmentDistance lat lng (point1, point2))) as Hl.
    pose proof (Rmin_r a (segmentDistance lat lng (point1, point2))) as Hr.
    split; [lra |]. split.
    + intros s [<- | Hin]; [lra | apply Hall; exact Hin].
    + destruct Hsome as [Hm | (s & Hin & Hm)].
      * unfold Rmin in Hm.
        destruct (Rle_dec a (segmentDistance lat lng (point1, point2))).
        -- left. exact Hm.
        -- right. exists (point1, point2). split; [left; reflexivity | exact Hm].
      * right. exists s. split; [right; exact Hin | exact Hm].
Qed.

(** The first loop of [calculateDistanceAlongRoute], entered with a minimum
    [m] that the vertex [closestIndex] gave: it returns [closestIndex] when
    no vertex of [g] is closer than [m], and otherwise the first vertex of [g]
    that is closest. *)
Lemma closestLoop_spec (lat lng : R) (g : list Coord) :
  forall (i closestIndex : nat) (m : R),
    let k := closestLoop lat lng g i closestIndex (Fin m) in
    (k = closestIndex /\ forall v, In v g -> m <= vertexDistance lat lng v) \/
    (exists j vertex,
       k = (i + j)%nat /\ nth_error g j = Some vertex /\
       vertexDistance lat lng vertex < m /\
       (forall v, In v g -> vertexDistance lat lng vertex <= vertexDistance lat lng v) /\
       (forall j' v, (j' < j)%nat -> nth_error g j' = Some v ->
                     vertexDistance lat lng vertex < vertexDistance lat lng v)).
Proof.
  induction g as [| point rest IH]; intros i closestIndex m; cbn zeta.
  - left. split; [reflexivity | contradiction].
  - cbn [closestLoop lt_Num].
    fold (vertexDistance lat lng point).
    destruct (ltb_spec (vertexDistance lat lng point) m) as [Hcloser | Hnot].
    + destruct (IH (S i) i (vertexDistance lat lng point))
        as [[Hk Hall] | (j & vertex & Hk & Hnth & Hlt & Hall & Hfirst)].
      * right. exists 0%nat, point. rewrite Nat.add_0_r.
        split; [exact Hk |]. split; [reflexivity |]. split; [exact Hcloser |]. split.
        -- intros v [<- | Hin]; [lra | apply Hall; exact Hin].
        -- intros j' v Hj'. lia.
      * right. exists (S j), vertex.
        split; [rewrite Hk; lia |]. split; [exact Hnth |]. split; [lra |]. split.
        -- intros v [<- | Hin]; [lra | apply Hall; exact Hin].
        -- intros [| j'] v Hj' Hv.
           ++ injection Hv as <-. exact Hlt.
           ++ apply (Hfirst j' v); [lia | exact Hv].
    + destruct (IH (S i) closestIndex m)
        as [[Hk Hall] | (j & vertex & Hk & Hnth & Hlt & Hall & Hfirst)].
      * left. split; [exact Hk |].
        intros v [<- | Hin]; [lra | apply Hall; exact Hin].
      * right. exists (S j), vertex.
        split; [rewrite Hk; lia |]. split; [exact Hnth |]. split; [exact Hlt |]. split.
        -- intros v [<- | Hin]; [lra | apply Hall; exact Hin].
        -- intros [| j'] v Hj' Hv.
           ++ injection Hv as <-. lra.
           ++ apply (Hfirst j' v); [lia | exact Hv].
Qed.

(** On a geometry that is not empty, the loop finds the first vertex that is
    closest to the position. *)
Lemma closestLoop_first_closest (lat lng : R) (g : list Coord) :
  g <> [] ->
  exists vertex,
    nth_error g (closestLoop lat lng g 0 0 Infinity) = Some vertex /\
    (forall v, In v g -> vertexDistance lat lng vertex <= vertexDistance lat lng v) /\
    (forall j v, (j < closestLoop lat lng g 0 0 Infinity)%nat ->
                 nth_error g j = Some v ->
                 vertexDistance lat lng vertex < vertexDistance lat lng v).
Proof.
  destruct g as [| point rest]; [contradiction |]. intros _.
  cbn [closestLoop lt_Num]. fold (vertexDistance lat lng point).
  destruct (closestLoop_spec lat lng rest 1 0 (vertexDistance lat lng point))
    as [[Hk Hall] | (j & vertex & Hk & Hnth & Hlt & Hall & Hfirst)].
  - rewrite Hk. exists point. split; [reflexivity |]. split.
    + intros v [<- | Hin]; [lra | apply Hall; exact Hin].
    + intros j v Hj. lia.
  - rewrite Hk. exists vertex. split; [exact Hnth |]. split.
    + intros v [<- | Hin]; [lra | apply Hall; exact Hin].
    + intros [| j'] v Hj' Hv.
      * injection Hv as <-. exact Hlt.
      * apply (Hfirst j' v); [lia | exact Hv].
Qed.

(** C8, as amended.  For a polyline of at least two vertices,
    [calculateDistanceToRoute] scans every consecutive segment pair and
    returns the minimum of the segment distances; and the distance along the
    route is the length of the polyline from its start to the vertex closest
    to the point (the first one, when several are as close), with no offset
    within a segment added. *)
Theorem map_matching_is_by_nearest_vertex (lat lng : R) (g : list Coord) :
  (2 <= List.length g)%nat ->
  (exists m,
     calculateDistanceToRoute lat lng g = Fin m /\
     (forall s, In s (segments g) -> m <= segmentDistance lat lng s) /\
     (exists s, In s (segments g) /\ m = segmentDistance lat lng s)) /\
  (exists k vertex,
     nth_error g k = Some vertex /\
     (forall v, In v g -> vertexDistance lat lng vertex <= vertexDistance lat lng v) /\
     (forall j v, (j < k)%nat -> nth_error g j = Some v ->
                  vertexDistance lat lng vertex < vertexDistance lat lng v) /\
     calculateDistanceAlongRoute lat lng g = lengthToVertex k g).
Proof.
  intros Hlen. split.
  - destruct g as [| point1 [| point2 rest]]; cbn in Hlen; try lia.
    unfold calculateDistanceToRoute.
    cbn [segments fold_left Math.min].
    destruct (scan_minimum lat lng (segments (point2 :: rest))
                (segmentDistance lat lng (point1, point2)))
      as (m & Hfold & Hle & Hall & Hsome).
    exists m. split; [exact Hfold |]. split.
    + intros s [<- | Hin]; [exact Hle | apply Hall; exact Hin].
    + destruct Hsome as [Hm | (s & Hin & Hm)].
      * exists (point1, point2). split; [left; reflexivity | exact Hm].
      * exists s. split; [right; exact Hin | exact Hm].
  - destruct (closestLoop_first_closest lat lng g) as (vertex & Hnth & Hall & Hfirst).
    { intros ->. cbn in Hlen. lia. }
    exists (closestLoop lat lng g 0 0 Infinity), vertex.
    repeat split; assumption || reflexivity.
Qed.

(** C8 on the example road, from a point of the road. *)
Lemma map_matching_is_by_nearest_vertex_example :
  (exists m,
     calculateDistanceToRoute 0 0.004 road = Fin m /\
     (forall s, In s (segments road) -> m <= segmentDistance 0 0.004 s) /\
     (exists s, In s (segments road) /\ m = segmentDistance 0 0.004 s)) /\
  (exists k vertex,
     nth_error road k = Some vertex /\
     (forall v, In v road -> vertexDistance 0 0.004 vertex <= vertexDistance 0 0.004 v) /\
     (forall j v, (j < k)%nat -> nth_error road j = Some v ->
                  vertexDistance 0 0.004 vertex < vertexDistance 0 0.004 v) /\
     calculateDistanceAlongRoute 0 0.004 road = lengthToVertex k road).
Proof.
  apply (map_matching_is_by_nearest_vertex 0 0.004 road). cbn. lia.
Defined.

(** The projected point on a segment of the equator, for a point whose
    longitude is within the segment. *)
Lemma projectOnSegment_equator_within (px py y1 y2 : R) :
  y1 < y2 -> y1 <= py <= y2 ->
  projectOnSegment px py 0 y1 0 y2 = (0, py).
Proof.
  intros Hlen [Hlo Hhi]. unfold projectOnSegment. cbv zeta.
  assert (Hsq : (0 - 0) * (0 - 0) + (y2 - y1) * (y2 - y1) <> 0) by nra.
  rewrite (neqb_true _ _ Hsq).
  set (param := ((px - 0) * (0 - 0) + (py - y1) * (y2 - y1))
                / ((0 - 0) * (0 - 0) + (y2 - y1) * (y2 - y1))).
  assert (Hparam : param = (py - y1) / (y2 - y1)).
  { unfold param. field. lra. }
  assert (H0 : 0 <= param).
  { rewrite Hparam. apply Rmult_le_pos; [lra |]. left. apply Rinv_0_lt_compat. lra. }
  assert (H1 : param <= 1).
  { rewrite Hparam. apply Rmult_le_reg_r with (y2 - y1); [lra |].
    unfold Rdiv. rewrite Rmult_assoc, Rinv_l by lra. lra. }
  rewrite (ltb_false param 0 H0). unfold gtb. rewrite (ltb_false 1 param H1).
  f_equal.
  - lra.
  - rewrite Hparam. field. lra.
Qed.

(** C8, as stated, fails.  From a point of the example road, 0.004 degrees
    (about 445 m) after its start, the closest vertex is the start: the
    distance along the route is 0, where the length up to the start of the
    closest segment plus the offset of the projected point is about 445 m. *)
Lemma distance_along_route_has_no_offset :
  calculateDistanceAlongRoute 0 0.004 road = 0 /\
  exists nearest,
    spec_nearestPointOnPolyline 0 0.004 road = Some nearest /\
    segmentIndex nearest = 0%nat /\
    distanceAlongPolylineMeters nearest = 0 + 6371e3 * (0.004 * PI / 180) /\
    400 < distanceAlongPolylineMeters nearest.
Proof.
  assert (Hstart : calculateDistance 0 0.004 0 0 = 6371e3 * (0.004 * PI / 180)).
  { rewrite calculateDistance_equator.
    - replace (0 - 0.004) with (Ropp 0.004) by lra.
      rewrite Rabs_Ropp, Rabs_pos_eq by lra. reflexivity.
    - replace (0 - 0.004) with (Ropp 0.004) by lra.
      rewrite Rabs_Ropp, Rabs_pos_eq by lra. lra. }
  assert (Hend : calculateDistance 0 0.004 0 0.01 = 6371e3 * (0.006 * PI / 180)).
  { rewrite calculateDistance_equator.
    - replace (0.01 - 0.004) with 0.006 by lra.
      rewrite Rabs_pos_eq by lra. reflexivity.
    - replace (0.01 - 0.004) with 0.006 by lra.
      rewrite Rabs_pos_eq by lra. lra. }
  assert (Hoffset : calculateDistance 0 0 0 0.004 = 6371e3 * (0.004 * PI / 180)).
  { rewrite calculateDistance_equator.
    - replace (0.004 - 0) with 0.004 by lra.
      rewrite Rabs_pos_eq by lra. reflexivity.
    - replace (0.004 - 0) with 0.004 by lra.
      rewrite Rabs_pos_eq by lra. lra. }
  pose proof PI_RGT_0 as Hpi.
  split.
  - unfold calculateDistanceAlongRoute, road.
    cbn [closestLoop lt_Num]. unfold latOf, lngOf. cbn [fst snd].
    rewrite Hstart, Hend.
    rewrite ltb_false by nra. reflexivity.
  - unfold spec_nearestPointOnPolyline, road.
    cbn [segments specScan]. unfold latOf, lngOf. cbn [fst snd].
    rewrite projectOnSegment_equator_within by lra.
    eexists. split; [reflexivity |]. split; [reflexivity |].
    cbn [distanceAlongPolylineMeters]. rewrite Hoffset.
    split; [reflexivity |]. pose proof (arc_bounds 0.004). lra.
Qed.

(** ** Degenerate input *)

(** C9, as amended.  Two identical points are at distance zero.  On a
    segment without length the division by the squared length is guarded:
    the segment's start is taken, and the distance from a point is its
    distance to the segment's one point.  That is zero when the point is that
    point; it is not zero in general. *)
Theorem degenerate_input_is_handled :
  (forall lat lon, calculateDistance lat lon lat lon = 0) /\
  (forall px py x1 y1,
     distanceToLineSegment px py x1 y1 x1 y1 = calculateDistance px py x1 y1) /\
  (forall x1 y1, distanceToLineSegment x1 y1 x1 y1 x1 y1 = 0).
Proof.
  split; [exact calculateDistance_same |].
  split; [exact distanceToLineSegment_point |].
  intros. rewrite distanceToLineSegment_point. apply calculateDistance_same.
Qed.

(** C9, as stated, fails.  The segment from the point (0, 0) to itself has no
    length, and the point 0.001 degrees north of it is more than 100 m away
    from it, not at distance zero. *)
Lemma zero_length_segment_is_not_at_distance_zero :
  100 < distanceToLineSegment 0.001 0 0 0 0 0.
Proof.
  rewrite distanceToLineSegment_point, calculateDistance_meridian.
  - replace (0 - 0.001) with (Ropp 0.001) by lra.
    rewrite Rabs_Ropp, Rabs_pos_eq by lra.
    pose proof (arc_bounds 0.001). lra.
  - replace (0 - 0.001) with (Ropp 0.001) by lra.
    rewrite Rabs_Ropp, Rabs_pos_eq by lra. lra.
Qed.

(** ** The route model *)

Lemma extractSteps_nth_error (steps : list Osrm.Step) :
  forall (k : nat) (distanceOffset : R),
    nth_error (extractSteps steps distanceOffset) k =
    option_map
      (fun step =>
         mkStep (formatInstruction step) (Osrm.distance step) (Osrm.duration step)
           (Osrm.maneuver step) (orElse (Some (Osrm.name step)) "Unnamed road")
           (fold_left (fun offset s => offset + Osrm.distance s) (firstn k steps)
              distanceOffset)
           (Osrm.location (Osrm.maneuver step)))
      (nth_error steps k).
Proof.
  induction steps as [| step rest IH]; intros k distanceOffset.
  - destruct k; reflexivity.
  - destruct k as [| k]; [reflexivity |].
    cbn [extractSteps nth_error firstn fold_left]. apply IH.
Qed.

(** The steps that navigation keeps are as many as the provider's, in the same
    order; each has the distance and the maneuver location of its provider
    step, and its distance from the start is the sum of the distances of the
    steps before it. *)
Theorem steps_are_offset_by_running_sum (steps : list Osrm.Step) :
  List.length (extractSteps steps 0) = List.length steps /\
  forall k,
    option_map (fun step => (distanceFromStart step, distance step, location step))
      (nth_error (extractSteps steps 0) k) =
    option_map
      (fun step =>
         (distanceOffsetAt k steps, Osrm.distance step,
          Osrm.location (Osrm.maneuver step)))
      (nth_error steps k).
Proof.
  split.
  - generalize 0. induction steps as [| step rest IH]; intros offset; cbn;
      [reflexivity | rewrite IH; reflexivity].
  - intros k. rewrite extractSteps_nth_error.
    destruct (nth_error steps k); reflexivity.
Qed.

Lemma running_sum_grows (steps : list Osrm.Step) :
  Forall (fun step => 0 <= Osrm.distance step) steps ->
  forall (i j : nat) (offset : R),
    (i <= j)%nat ->
    fold_left (fun acc s => acc + Osrm.distance s) (firstn i steps) offset <=
    fold_left (fun acc s => acc + Osrm.distance s) (firstn j steps) offset.
Proof.
  induction 1 as [| step rest Hstep Hrest IH]; intros i j offset Hij.
  - rewrite !firstn_nil. cbn. lra.
  - destruct j as [| j].
    + replace i with 0%nat by lia. lra.
    + destruct i as [| i]; cbn [firstn fold_left].
      * apply Rle_trans with (offset + Osrm.distance step); [lra |].
        apply (IH 0%nat j). lia.
      * apply IH. lia.
Qed.

(** When no step of the provider has a negative distance, the distance from
    the start does not decrease along the steps. *)
Theorem distance_from_start_does_not_decrease (steps : list Osrm.Step)
    (i j : nat) (earlier later : Step) :
  Forall (fun step => 0 <= Osrm.distance step) steps ->
  (i <= j)%nat ->
  nth_error (extractSteps steps 0) i = Some earlier ->
  nth_error (extractSteps steps 0) j = Some later ->
  distanceFromStart earlier <= distanceFromStart later.
Proof.
  intros Hall Hij Hi Hj.
  rewrite extractSteps_nth_error in Hi. rewrite extractSteps_nth_error in Hj.
  destruct (nth_error steps i); [| discriminate].
  destruct (nth_error steps j); [| discriminate].
  injection Hi as <-. injection Hj as <-. cbn.
  apply running_sum_grows; assumption.
Qed.

Lemma distance_from_start_does_not_decrease_example :
  distanceFromStart departStep <= distanceFromStart arriveStep.
Proof.
  apply (distance_from_start_does_not_decrease (Osrm.steps equatorRoute) 0 2
           departStep arriveStep).
  - repeat constructor; cbn; lra.
  - lia.
  - reflexivity.
  - reflexivity.
Defined.

(** An arrival step reads the same whatever its street name and modifier. *)
Theorem arrival_instruction_is_fixed (step : Osrm.Step) :
  Osrm.type (Osrm.maneuver step) = "arrive" ->
  formatInstruction step = "You have arrived at your destination".
Proof.
  intros Harrive. unfold formatInstruction. rewrite Harrive. cbn.
  rewrite andb_false_r. reflexivity.
Qed.

Lemma arrival_instruction_is_fixed_example :
  formatInstruction
    (Osrm.mkStep 0 0 (Osrm.mkManeuver "arrive" (Some "left") None (0.01, 0)) "Equator Road")
  = "You have arrived at your destination".
Proof.
  apply (arrival_instruction_is_fixed
           (Osrm.mkStep 0 0 (Osrm.mkManeuver "arrive" (Some "left") None (0.01, 0))
              "Equator Road")).
  reflexivity.
Defined.

(** ** The example, further *)

Lemma atRouteEnd_arriveStep : distanceToStep atRouteEnd arriveStep = 0.
Proof. apply calculateDistance_same. Qed.

Lemma atRouteEnd_onRoute (w : World) :
  routeGeometry w = road -> offRouteThreshold w = 50 -> offRoute atRouteEnd w = false.
Proof.
  intros Hg Ht. unfold offRoute. rewrite Hg, Ht. cbn.
  rewrite onRoad_distance by lra. rewrite gt_Num_Fin. apply ltb_false. lra.
Qed.

(** The route request in flight, the timer gone. *)
Lemma requested_eq :
  requested =
  mkWorld (Some (positionOf pastRouteEnd)) (Some (mkLatLng 0 0.01)) true
    [departStep; turnStep; arriveStep] 0 1112 100
    (0 + 556 - calculateDistanceAlongRoute 0 0.02 road) road
    None 50 (Some 1%nat) [] 2 3000 [0%nat] 1
    (RouteRequest 0 0 0.02 0 0.01 :: log leftRoute).
Proof. unfold requested. rewrite leftRoute_eq. reflexivity. Qed.

(** At the end of the road after the turn: the arrival is declared and the
    timer that stops navigation is set, behind the recalculation's. *)
Lemma arrived_eq :
  arrived =
  mkWorld (Some (positionOf atRouteEnd)) (Some (mkLatLng 0 0.01)) true
    [departStep; turnStep; arriveStep] 3 1112 100
    (0 + 556 + 556 + 0 - calculateDistanceAlongRoute 0 0.01 road) road
    (Some "You have arrived at your destination") 50 (Some 1%nat)
    [mkTimer 1 3000 CbRecalculate; mkTimer 2 3000 CbStopNavigation] 3 0 [] 0
    (Toast "You have arrived!" "success"
     :: Speak (Plain "You have arrived at your destination")
     :: log afterTurn).
Proof.
  unfold arrived. rewrite afterTurn_eq.
  rewrite (handleLocationUpdate_tick atRouteEnd arriveStep) by reflexivity.
  unfold tick. cbv zeta.
  rewrite atRouteEnd_arriveStep, atRouteEnd_onRoute by reflexivity.
  rewrite !ltb_true by lra. reflexivity.
Qed.

(** ** Stopping *)

Lemma handleLocationUpdates_cons (position : Geolocation.Position)
    (positions : list Geolocation.Position) (w : World) :
  handleLocationUpdates (position :: positions) w =
  handleLocationUpdates positions (handleLocationUpdate position w).
Proof. reflexivity. Qed.

(** Stopping before the recalculation's timer has fired cancels the
    recalculation: the timer is gone and can fire at no later time, so no
    route is requested for it. *)
Theorem stop_cancels_pending_recalculation (id : nat) (w : World) :
  recalculationTimeout w = Some id ->
  recalculationTimeout (stopNavigation w) = None /\
  forall now, step now (TimerFires id) (stopNavigation w) = None.
Proof.
  intros Hsome.
  destruct (stopNavigation_clears_pending id w Hsome) as [Hnone Hgone].
  split; [exact Hnone |].
  intros now. unfold step.
  destruct (now <? clock (stopNavigation w))%nat; [reflexivity |].
  change (pendingTimer id (set_clock now (stopNavigation w)))
    with (pendingTimer id (stopNavigation w)).
  rewrite Hgone. reflexivity.
Qed.

Lemma stop_cancels_pending_recalculation_example :
  recalculationTimeout (stopNavigation leftRoute) = None /\
  forall now, step now (TimerFires 1) (stopNavigation leftRoute) = None.
Proof.
  apply (stop_cancels_pending_recalculation 1 leftRoute).
  rewrite leftRoute_eq. reflexivity.
Defined.

(** After a stop, location updates only store the position: whatever
    positions follow, nothing is said or shown, no timer is set, and
    navigation stays stopped at step 0 with nothing pending. *)
Theorem location_updates_after_stop_are_inert
    (positions : list Geolocation.Position) (w : World) :
  let stopped := stopNavigation w in
  let w' := handleLocationUpdates positions stopped in
  log w' = log stopped /\ timers w' = timers stopped /\
  isNavigating w' = false /\ currentStepIndex w' = 0%nat /\
  recalculationTimeout w' = None /\
  currentPosition w' =
    match positions with
    | [] => currentPosition w
    | _ => Some (positionOf (last positions (sample 0 0 0)))
    end.
Proof.
  cbv zeta.
  assert (Hinert : forall positions v,
             isNavigating v = false ->
             let v' := handleLocationUpdates positions v in
             log v' = log v /\ timers v' = timers v /\
             isNavigating v' = false /\ currentStepIndex v' = currentStepIndex v /\
             recalculationTimeout v' = recalculationTimeout v /\
             currentPosition v' =
               match positions with
               | [] => currentPosition v
               | _ => Some (positionOf (last positions (sample 0 0 0)))
               end).
  { clear. induction positions as [| position rest IH]; intros v Hidle; cbv zeta.
    - auto 10.
    - rewrite handleLocationUpdates_cons, handleLocationUpdate_idle by exact Hidle.
      destruct (IH (set_currentPosition (Some (positionOf position)) v) Hidle)
        as (Hlog & Htimers & Hnav & Hindex & Htimeout & Hpos).
      split; [exact Hlog |]. split; [exact Htimers |]. split; [exact Hnav |].
      split; [exact Hindex |]. split; [exact Htimeout |].
      rewrite Hpos. destruct rest; reflexivity. }
  assert (Hstop : isNavigating (stopNavigation w) = false /\
                  currentStepIndex (stopNavigation w) = 0%nat /\
                  recalculationTimeout (stopNavigation w) = None /\
                  currentPosition (stopNavigation w) = currentPosition w).
  { unfold stopNavigation, showToast, emit, clearTimeout. cbn.
    destruct (recalculationTimeout w) eqn:Htimeout; cbn; repeat split.
    exact Htimeout. }
  destruct Hstop as (Hidle & Hzero & Hnone & Hsame).
  destruct (Hinert positions (stopNavigation w) Hidle)
    as (Hlog & Htimers & Hnav & Hindex & Htimeout & Hpos).
  split; [exact Hlog |]. split; [exact Htimers |]. split; [exact Hnav |].
  split; [rewrite Hindex; exact Hzero |].
  split; [rewrite Htimeout; exact Hnone |].
  rewrite Hpos. destruct positions; [exact Hsame | reflexivity].
Qed.

(** ** Recalculation *)

(** One location update with a recalculation pending: no second timer of a
    recalculation, no second toast. *)
Lemma handleLocationUpdate_guarded (position : Geolocation.Position) (id : nat)
    (w : World) :
  recalculationTimeout w = Some id ->
  recalculationTimeout (handleLocationUpdate position w) = Some id /\
  filter isRecalculationTimer (timers (handleLocationUpdate position w)) =
    filter isRecalculationTimer (timers w) /\
  exists new,
    log (handleLocationUpdate position w) = (new ++ log w)%list /\
    filter isRecalculatingToast new = [].
Proof.
  intros Hsome. by_cases position w.
  - split; [exact Hsome |]. split; [reflexivity |]. exists []. split; reflexivity.
  - unfold arriveAtDestination, setTimeout, showToast, speakInstruction, emit. cbn.
    split; [exact Hsome |]. split.
    + rewrite filter_app. cbn. apply app_nil_r.
    + exists [Toast "You have arrived!" "success"; Speak (Plain arrivalText)].
      split; reflexivity.
  - unfold tick. cbv zeta. cbn. rewrite Hsome, andb_false_r. cbn.
    split; [reflexivity |]. split.
    + rewrite !filter_app. cbn.
      destruct (ltb _ 20 && _); cbn; rewrite ?app_nil_r; reflexivity.
    + eexists. split; [rewrite !app_assoc; reflexivity |].
      rewrite !filter_app.
      destruct (ltb (distanceToStep position currentStep) 20);
        try destruct (nth_error (steps w) (S (currentStepIndex w)));
        destruct (ltb _ 200 && _); reflexivity.
Qed.

(** While a recalculation is pending or in flight, location updates start no
    second one, however many they are and however far off the route: the
    timers of recalculations stay the same and the toast is not shown again. *)
Theorem pending_recalculation_is_not_restarted
    (positions : list Geolocation.Position) (id : nat) (w : World) :
  recalculationTimeout w = Some id ->
  recalculationTimeout (handleLocationUpdates positions w) = Some id /\
  filter isRecalculationTimer (timers (handleLocationUpdates positions w)) =
    filter isRecalculationTimer (timers w) /\
  exists new,
    log (handleLocationUpdates positions w) = (new ++ log w)%list /\
    filter isRecalculatingToast new = [].
Proof.
  revert w. induction positions as [| position rest IH]; intros w Hsome.
  - split; [exact Hsome |]. split; [reflexivity |]. exists []. split; reflexivity.
  - rewrite handleLocationUpdates_cons.
    destruct (handleLocationUpdate_guarded position id w Hsome)
      as (Hsome1 & Htimers1 & new1 & Hlog1 & Hnone1).
    destruct (IH _ Hsome1) as (Hsome2 & Htimers2 & new2 & Hlog2 & Hnone2).
    split; [exact Hsome2 |]. split; [rewrite Htimers2; exact Htimers1 |].
    exists (new2 ++ new1)%list. split.
    + rewrite Hlog2, Hlog1, app_assoc. reflexivity.
    + rewrite filter_app, Hnone1, Hnone2. reflexivity.
Qed.

Lemma pending_recalculation_is_not_restarted_example :
  recalculationTimeout (handleLocationUpdates [pastRouteEnd; atTurn; pastRouteEnd] leftRoute)
    = Some 1%nat /\
  filter isRecalculationTimer
    (timers (handleLocationUpdates [pastRouteEnd; atTurn; pastRouteEnd] leftRoute)) =
    filter isRecalculationTimer (timers leftRoute) /\
  exists new,
    log (handleLocationUpdates [pastRouteEnd; atTurn; pastRouteEnd] leftRoute) =
      (new ++ log leftRoute)%list /\
    filter isRecalculatingToast new = [].
Proof.
  apply (pending_recalculation_is_not_restarted [pastRouteEnd; atTurn; pastRouteEnd] 1
           leftRoute).
  rewrite leftRoute_eq. reflexivity.
Defined.

(** A recalculation that fails leaves the route, the step and navigation as
    they were, says so in a toast, and clears the pending mark: the next
    sample off the route sets a new recalculation going. *)
Theorem failed_recalculation_can_be_retried (position : Geolocation.Position)
    (currentStep : Step) (dest : LatLng) (w : World) :
  wellFormed w ->
  isNavigating w = true ->
  nth_error (steps w) (currentStepIndex w) = Some currentStep ->
  destinationMarker w = Some dest ->
  offRoute position w = true ->
  steps (recalculationResumes None w) = steps w /\
  routeGeometry (recalculationResumes None w) = routeGeometry w /\
  currentStepIndex (recalculationResumes None w) = currentStepIndex w /\
  isNavigating (recalculationResumes None w) = true /\
  recalculationTimeout (recalculationResumes None w) = None /\
  log (recalculationResumes None w) =
    Toast "Failed to recalculate route" "error" :: log w /\
  exists id,
    recalculationPending id (clock w + 3000) dest
      (handleLocationUpdate position (recalculationResumes None w)).
Proof.
  intros Hwf Hnav Hstep Hdest Hoff.
  split; [reflexivity |]. split; [reflexivity |]. split; [reflexivity |].
  split; [exact Hnav |]. split; [reflexivity |]. split; [reflexivity |].
  apply (offRoute_sets_timer position currentStep dest (recalculationResumes None w));
    try assumption.
  reflexivity.
Qed.

Lemma requested_wellFormed : wellFormed requested.
Proof. intros t Hin. rewrite requested_eq in Hin. destruct Hin. Qed.

Lemma failed_recalculation_can_be_retried_example :
  steps (recalculationResumes None requested) = steps requested /\
  routeGeometry (recalculationResumes None requested) = routeGeometry requested /\
  currentStepIndex (recalculationResumes None requested) = currentStepIndex requested /\
  isNavigating (recalculationResumes None requested) = true /\
  recalculationTimeout (recalculationResumes None requested) = None /\
  log (recalculationResumes None requested) =
    Toast "Failed to recalculate route" "error" :: log requested /\
  exists id,
    recalculationPending id (clock requested + 3000) (mkLatLng 0 0.01)
      (handleLocationUpdate pastRouteEnd (recalculationResumes None requested)).
Proof.
  apply (failed_recalculation_can_be_retried pastRouteEnd departStep (mkLatLng 0 0.01)
           requested).
  - exact requested_wellFormed.
  - rewrite requested_eq. reflexivity.
  - rewrite requested_eq. reflexivity.
  - rewrite requested_eq. reflexivity.
  - apply pastRouteEnd_offRoute; rewrite requested_eq; reflexivity.
Defined.

(** A recalculated route replaces the old one and starts guidance over: the
    first step is current, the remaining distance is the route's, nothing
    counts as spoken and nothing is pending; so the new first step gets its
    approach announcement on the next location update within 200 m of its
    maneuver location, whatever was announced before. *)
Theorem recalculated_route_restarts_guidance (route : Osrm.Route)
    (position : Geolocation.Position) (firstStep : Step) (w : World) :
  isNavigating w = true ->
  nth_error (extractSteps (Osrm.steps route) 0) 0 = Some firstStep ->
  distanceToStep position firstStep < 200 ->
  steps (recalculationResumes (Some route) w) = extractSteps (Osrm.steps route) 0 /\
  routeGeometry (recalculationResumes (Some route) w) = Osrm.geometry route /\
  totalDistance (recalculationResumes (Some route) w) = Osrm.routeDistance route /\
  remainingDistance (recalculationResumes (Some route) w) = Osrm.routeDistance route /\
  currentStepIndex (recalculationResumes (Some route) w) = 0%nat /\
  lastSpokenInstruction (recalculationResumes (Some route) w) = None /\
  recalculationTimeout (recalculationResumes (Some route) w) = None /\
  In (Speak (Approach (distanceToStep position firstStep) (instruction firstStep)))
    (log (handleLocationUpdate position (recalculationResumes (Some route) w))).
Proof.
  intros Hnav Hfirst Hnear.
  repeat (split; [reflexivity |]).
  rewrite (handleLocationUpdate_tick position firstStep) by assumption.
  unfold tick. cbv zeta. cbn [log].
  rewrite (ltb_true _ 200 Hnear).
  change (differsFromLastSpoken (instruction firstStep)
            (recalculationResumes (Some route) w)) with true.
  cbn [andb]. apply in_or_app. right. apply in_or_app. right. left. reflexivity.
Qed.

Lemma recalculated_route_restarts_guidance_example :
  steps (recalculationResumes (Some otherRoute) requested) =
    extractSteps (Osrm.steps otherRoute) 0 /\
  routeGeometry (recalculationResumes (Some otherRoute) requested) =
    Osrm.geometry otherRoute /\
  totalDistance (recalculationResumes (Some otherRoute) requested) =
    Osrm.routeDistance otherRoute /\
  remainingDistance (recalculationResumes (Some otherRoute) requested) =
    Osrm.routeDistance otherRoute /\
  currentStepIndex (recalculationResumes (Some otherRoute) requested) = 0%nat /\
  lastSpokenInstruction (recalculationResumes (Some otherRoute) requested) = None /\
  recalculationTimeout (recalculationResumes (Some otherRoute) requested) = None /\
  In (Speak (Approach
               (distanceToStep pastRouteEnd
                  (mkStep "Head west onto Equator Road" 1112 100
                     (Osrm.mkManeuver "depart" (Some "west") None (0.02, 0))
                     "Equator Road" 0 (0.02, 0)))
               "Head west onto Equator Road"))
    (log (handleLocationUpdate pastRouteEnd
            (recalculationResumes (Some otherRoute) requested))).
Proof.
  apply (recalculated_route_restarts_guidance otherRoute pastRouteEnd
           (mkStep "Head west onto Equator Road" 1112 100
              (Osrm.mkManeuver "depart" (Some "west") None (0.02, 0))
              "Equator Road" 0 (0.02, 0))
           requested).
  - rewrite requested_eq. reflexivity.
  - reflexivity.
  - unfold distanceToStep. cbn. unfold latOf, lngOf. cbn.
    rewrite calculateDistance_same. lra.
Defined.

(** ** Arrival *)

Lemma stopNavigation_effect (w : World) :
  isNavigating (stopNavigation w) = false /\
  currentStepIndex (stopNavigation w) = 0%nat /\
  destinationMarker (stopNavigation w) = None /\
  recalculationTimeout (stopNavigation w) = None /\
  log (stopNavigation w) = Toast "Navigation stopped" "info" :: log w.
Proof.
  unfold stopNavigation, showToast, emit, clearTimeout. cbn.
  destruct (recalculationTimeout w) eqn:Htimeout; cbn; repeat split.
  exact Htimeout.
Qed.

(** Completing the last step stops navigation 3 s later: on the update that
    completes it the timer of the stop is set; it cannot fire before 3 s have
    passed, and when it fires navigation is stopped, the step index is back
    at 0 and the destination marker is removed. *)
Theorem arrival_stops_navigation_after_delay (position : Geolocation.Position)
    (currentStep : Step) (w : World) :
  wellFormed w ->
  isNavigating w = true ->
  nth_error (steps w) (currentStepIndex w) = Some currentStep ->
  distanceToStep position currentStep < 20 ->
  (List.length (steps w) <= S (currentStepIndex w))%nat ->
  (forall now, (now < clock w + 3000)%nat ->
     step now (TimerFires (nextTimerId w)) (handleLocationUpdate position w) = None) /\
  (forall now, (clock w + 3000 <= now)%nat ->
     exists stopped,
       step now (TimerFires (nextTimerId w)) (handleLocationUpdate position w) =
         Some stopped /\
       isNavigating stopped = false /\
       currentStepIndex stopped = 0%nat /\
       destinationMarker stopped = None /\
       recalculationTimeout stopped = None /\
       hd_error (log stopped) = Some (Toast "Navigation stopped" "info")).
Proof.
  intros Hwf Hnav Hstep Hclose Hlast.
  apply nth_error_None in Hlast.
  assert (Htimer : pendingTimer (nextTimerId w) (handleLocationUpdate position w) =
                   Some (mkTimer (nextTimerId w) (clock w + 3000) CbStopNavigation)).
  { rewrite (handleLocationUpdate_tick position currentStep w Hnav Hstep).
    unfold pendingTimer, tick. cbv zeta. cbn.
    rewrite (ltb_true _ 20 Hclose), Hlast. cbn.
    rewrite find_app_later.
    - cbn. rewrite Nat.eqb_refl. reflexivity.
    - intros t Hin. apply Hwf in Hin. apply Nat.eqb_neq. lia. }
  assert (Hclock : clock (handleLocationUpdate position w) = clock w)
    by apply handleLocationUpdate_frame.
  split.
  - intros now Hearly. unfold step.
    destruct (now <? clock (handleLocationUpdate position w))%nat; [reflexivity |].
    change (pendingTimer (nextTimerId w) (set_clock now (handleLocationUpdate position w)))
      with (pendingTimer (nextTimerId w) (handleLocationUpdate position w)).
    rewrite Htimer. cbn.
    destruct (Nat.leb_spec (clock w + 3000) now); [lia | reflexivity].
  - intros now Hdue. unfold step. rewrite Hclock.
    destruct (Nat.ltb_spec now (clock w)); [lia |].
    change (pendingTimer (nextTimerId w) (set_clock now (handleLocationUpdate position w)))
      with (pendingTimer (nextTimerId w) (handleLocationUpdate position w)).
    rewrite Htimer. cbn.
    destruct (Nat.leb_spec (clock w + 3000) now); [| lia].
    eexists. split; [reflexivity |]. cbn [runCallback].
    destruct (stopNavigation_effect
                (clearTimeout (nextTimerId w)
                   (set_clock now (handleLocationUpdate position w))))
      as (Hidle & Hzero & Hmarker & Hnone & Hlog).
    rewrite Hlog. auto.
Qed.

Lemma afterTurn_wellFormed : wellFormed afterTurn.
Proof.
  intros t Hin. rewrite afterTurn_eq in *. cbn in *.
  destruct Hin as [<- | []]. cbn. lia.
Qed.

Lemma arrival_stops_navigation_after_delay_example :
  (forall now, (now < clock afterTurn + 3000)%nat ->
     step now (TimerFires (nextTimerId afterTurn)) (handleLocationUpdate atRouteEnd afterTurn)
       = None) /\
  (forall now, (clock afterTurn + 3000 <= now)%nat ->
     exists stopped,
       step now (TimerFires (nextTimerId afterTurn))
         (handleLocationUpdate atRouteEnd afterTurn) = Some stopped /\
       isNavigating stopped = false /\
       currentStepIndex stopped = 0%nat /\
       destinationMarker stopped = None /\
       recalculationTimeout stopped = None /\
       hd_error (log stopped) = Some (Toast "Navigation stopped" "info")).
Proof.
  apply (arrival_stops_navigation_after_delay atRouteEnd arriveStep afterTurn).
  - exact afterTurn_wellFormed.
  - rewrite afterTurn_eq. reflexivity.
  - rewrite afterTurn_eq. reflexivity.
  - rewrite atRouteEnd_arriveStep. lra.
  - rewrite afterTurn_eq. cbn. lia.
Defined.

(** One location update after the last step. *)
Lemma handleLocationUpdate_arrives_again (position : Geolocation.Position) (w : World) :
  isNavigating w = true ->
  nth_error (steps w) (currentStepIndex w) = None ->
  let w' := handleLocationUpdate position w in
  isNavigating w' = true /\
  nth_error (steps w') (currentStepIndex w') = None /\
  log w' = Toast "You have arrived!" "success" :: Speak (Plain arrivalText) :: log w /\
  timers w' =
    (timers w ++ [mkTimer (nextTimerId w) (clock w + 3000) CbStopNavigation])%list.
Proof.
  intros Hnav Hnone. cbv zeta.
  rewrite handleLocationUpdate_beyond by assumption.
  unfold arriveAtDestination, setTimeout, showToast, speakInstruction, emit. cbn.
  auto.
Qed.

(** Between the completion of the last step and the stop, every location
    update declares the arrival again: as many arrival toasts and as many
    timers of a stop are added as there are updates. *)
Theorem every_update_after_last_step_declares_arrival
    (positions : list Geolocation.Position) (w : World) :
  isNavigating w = true ->
  nth_error (steps w) (currentStepIndex w) = None ->
  exists new added,
    log (handleLocationUpdates positions w) = (new ++ log w)%list /\
    List.length (filter isArrivalToast new) = List.length positions /\
    timers (handleLocationUpdates positions w) = (timers w ++ added)%list /\
    List.length added = List.length positions /\
    Forall (fun t => callback t = CbStopNavigation) added.
Proof.
  revert w. induction positions as [| position rest IH]; intros w Hnav Hnone.
  - exists [], []. cbn. rewrite app_nil_r. auto.
  - rewrite handleLocationUpdates_cons.
    destruct (handleLocationUpdate_arrives_again position w Hnav Hnone)
      as (Hnav1 & Hnone1 & Hlog1 & Htimers1).
    destruct (IH _ Hnav1 Hnone1) as (new & added & Hlog & Hcount & Htimers & Hlen & Hall).
    exists (new ++ [Toast "You have arrived!" "success"; Speak (Plain arrivalText)])%list.
    exists (mkTimer (nextTimerId w) (clock w + 3000) CbStopNavigation :: added).
    split; [rewrite Hlog, Hlog1, <- app_assoc; reflexivity |].
    split; [rewrite filter_app, length_app, Hcount; cbn; lia |].
    split; [rewrite Htimers, Htimers1, <- app_assoc; reflexivity |].
    split; [cbn; rewrite Hlen; reflexivity |].
    constructor; [reflexivity | exact Hall].
Qed.

Lemma every_update_after_last_step_declares_arrival_example :
  exists new added,
    log (handleLocationUpdates [atRouteEnd; atRouteEnd] arrived) =
      (new ++ log arrived)%list /\
    List.length (filter isArrivalToast new) = List.length [atRouteEnd; atRouteEnd] /\
    timers (handleLocationUpdates [atRouteEnd; atRouteEnd] arrived) =
      (timers arrived ++ added)%list /\
    List.length added = List.length [atRouteEnd; atRouteEnd] /\
    Forall (fun t => callback t = CbStopNavigation) added.
Proof.
  apply (every_update_after_last_step_declares_arrival [atRouteEnd; atRouteEnd] arrived).
  - rewrite arrived_eq. reflexivity.
  - rewrite arrived_eq. reflexivity.
Defined.

(** ** The step index over several updates *)

(** Over any location updates the step index does not go back, and it grows
    by at most the number of the updates. *)
Theorem step_index_over_updates (positions : list Geolocation.Position) (w : World) :
  (currentStepIndex w <= currentStepIndex (handleLocationUpdates positions w)
   <= currentStepIndex w + List.length positions)%nat.
Proof.
  revert w. induction positions as [| position rest IH]; intros w.
  - cbn. lia.
  - rewrite handleLocationUpdates_cons.
    specialize (IH (handleLocationUpdate position w)).
    assert (Hone : (currentStepIndex w <= currentStepIndex (handleLocationUpdate position w)
                    <= S (currentStepIndex w))%nat).
    { by_cases position w.
      - cbn. lia.
      - unfold arriveAtDestination, setTimeout, showToast, speakInstruction, emit.
        cbn. lia.
      - cbn. destruct (ltb (distanceToStep position currentStep) 20); lia. }
    cbn [List.length]. lia.
Qed.

(** ** No filter in the navigation class *)

(** [handleLocationUpdate] of the navigation class does not filter as the
    dashboard's tracker does: whatever its accuracy and however little it
    moved, every sample becomes [currentPosition]. *)
Theorem every_sample_becomes_current (position : Geolocation.Position) (w : World) :
  currentPosition (handleLocationUpdate position w) = Some (positionOf position).
Proof. apply handleLocationUpdate_frame. Qed.

(** After the fix [atDeparture] (accuracy 5 m), the fix [poorFix] has an
    accuracy of 500 m, and [jitter] is at a displacement of 0 m with no
    better accuracy: each becomes the current position of the navigation. *)
Example poor_and_still_samples_are_accepted :
  currentPosition afterDeparture = Some (positionOf atDeparture) /\
  (100 < Geolocation.accuracy poorFix /\
   Geolocation.accuracy atDeparture < Geolocation.accuracy poorFix /\
   currentPosition (handleLocationUpdate poorFix afterDeparture) =
     Some (mkPosition 0 0.02 500 None None 0)) /\
  (calculateDistance (Geolocation.latitude atDeparture) (Geolocation.longitude atDeparture)
     (Geolocation.latitude jitter) (Geolocation.longitude jitter) < 2 /\
   Geolocation.accuracy jitter = Geolocation.accuracy atDeparture /\
   currentPosition (handleLocationUpdate jitter afterDeparture) =
     Some (mkPosition 0 0 5 None None 1000)).
Proof.
  split; [apply handleLocationUpdate_frame |]. split.
  - cbn. repeat split; try lra. apply handleLocationUpdate_frame.
  - cbn. repeat split.
    + rewrite calculateDistance_same. lra.
    + apply handleLocationUpdate_frame.
Qed.

(** ** The geometry kernel, further *)

(** The distance between two points does not depend on their order. *)
Theorem calculateDistance_symmetric (lat1 lon1 lat2 lon2 : R) :
  calculateDistance lat1 lon1 lat2 lon2 = calculateDistance lat2 lon2 lat1 lon1.
Proof.
  unfold calculateDistance. cbv zeta. unfold Math.sin, Math.cos, Math.PI.
  replace ((lat1 - lat2) * PI / 180 / 2) with (- ((lat2 - lat1) * PI / 180 / 2)) by lra.
  replace ((lon1 - lon2) * PI / 180 / 2) with (- ((lon2 - lon1) * PI / 180 / 2)) by lra.
  rewrite !sin_neg.
  set (s := sin ((lat2 - lat1) * PI / 180 / 2)).
  set (t := sin ((lon2 - lon1) * PI / 180 / 2)).
  set (c1 := cos (lat1 * PI / 180)). set (c2 := cos (lat2 * PI / 180)).
  replace (- s * - s + c2 * c1 * - t * - t) with (s * s + c1 * c2 * t * t) by ring.
  reflexivity.
Qed.

(** Over the reals, the distance to a segment is never negative. *)
Lemma distanceToLineSegment_nonneg (px py x1 y1 x2 y2 : R) :
  0 <= distanceToLineSegment px py x1 y1 x2 y2.
Proof.
  unfold distanceToLineSegment. cbv zeta.
  destruct (ltb _ 0); [| destruct (gtb _ 1)]; apply calculateDistance_nonneg.
Qed.

(** Over the reals, the two ends of a segment are at distance zero from it. *)
Lemma distanceToLineSegment_start (x1 y1 x2 y2 : R) :
  distanceToLineSegment x1 y1 x1 y1 x2 y2 = 0.
Proof.
  unfold distanceToLineSegment. cbv zeta.
  set (lenSq := (x2 - x1) * (x2 - x1) + (y2 - y1) * (y2 - y1)).
  replace ((x1 - x1) * (x2 - x1) + (y1 - y1) * (y2 - y1)) with 0 by ring.
  unfold neqb. destruct (Req_dec_T lenSq 0) as [Hzero | Hlen].
  - rewrite ltb_true by lra. apply calculateDistance_same.
  - replace (0 / lenSq) with 0 by (field; exact Hlen).
    rewrite ltb_false by lra. unfold gtb. rewrite ltb_false by lra.
    replace (x1 + 0 * (x2 - x1)) with x1 by ring.
    replace (y1 + 0 * (y2 - y1)) with y1 by ring.
    apply calculateDistance_same.
Qed.

Lemma distanceToLineSegment_end (x1 y1 x2 y2 : R) :
  distanceToLineSegment x2 y2 x1 y1 x2 y2 = 0.
Proof.
  unfold distanceToLineSegment. cbv zeta.
  set (lenSq := (x2 - x1) * (x2 - x1) + (y2 - y1) * (y2 - y1)).
  unfold neqb. destruct (Req_dec_T lenSq 0) as [Hzero | Hlen].
  - rewrite ltb_true by lra.
    destruct (Rplus_sqr_eq_0 (x2 - x1) (y2 - y1) Hzero) as [Hx Hy].
    replace x2 with x1 by lra. replace y2 with y1 by lra.
    apply calculateDistance_same.
  - replace (lenSq / lenSq) with 1 by (field; exact Hlen).
    rewrite ltb_false by lra. unfold gtb. rewrite ltb_false by lra.
    replace (x1 + 1 * (x2 - x1)) with x2 by ring.
    replace (y1 + 1 * (y2 - y1)) with y2 by ring.
    apply calculateDistance_same.
Qed.

(** Every vertex of a polyline of two vertices or more is an end of one of
    its segments. *)
Lemma vertex_in_segment (g : list Coord) (v : Coord) :
  (2 <= List.length g)%nat -> In v g ->
  exists s, In s (segments g) /\ (fst s = v \/ snd s = v).
Proof.
  induction g as [| point1 rest IH]; cbn [List.length]; [lia |].
  destruct rest as [| point2 rest]; cbn [List.length]; [lia |].
  intros _ [<- | Hin].
  - exists (point1, point2). split; [left; reflexivity | left; reflexivity].
  - destruct rest as [| point3 rest].
    + destruct Hin as [<- | []].
      exists (point1, point2). split; [left; reflexivity | right; reflexivity].
    + destruct IH as (s & Hs & Hend); [cbn; lia | exact Hin |].
      exists s. split; [right; exact Hs | exact Hend].
Qed.

(** The distance to the route is the minimum of the segment distances. *)
Lemma distanceToRoute_minimum (lat lng : R) (g : list Coord) :
  (2 <= List.length g)%nat ->
  exists m,
    calculateDistanceToRoute lat lng g = Fin m /\
    (forall s, In s (segments g) -> m <= segmentDistance lat lng s) /\
    (exists s, In s (segments g) /\ m = segmentDistance lat lng s).
Proof.
  intros Hlen.
  destruct g as [| point1 [| point2 rest]]; cbn in Hlen; try lia.
  unfold calculateDistanceToRoute. cbn [segments fold_left Math.min].
  destruct (scan_minimum lat lng (segments (point2 :: rest))
              (segmentDistance lat lng (point1, point2)))
    as (m & Hfold & Hle & Hall & Hsome).
  exists m. split; [exact Hfold |]. split.
  - intros s [<- | Hin]; [exact Hle | apply Hall; exact Hin].
  - destruct Hsome as [Hm | (s & Hin & Hm)].
    + exists (point1, point2). split; [left; reflexivity | exact Hm].
    + exists s. split; [right; exact Hin | exact Hm].
Qed.

(** Over the reals, the distance to the route from one of its vertices is
    zero. *)
Lemma distanceToRoute_vertex (g : list Coord) (v : Coord) :
  (2 <= List.length g)%nat -> In v g ->
  calculateDistanceToRoute (latOf v) (lngOf v) g = Fin 0.
Proof.
  intros Hlen Hin.
  destruct (distanceToRoute_minimum (latOf v) (lngOf v) g Hlen)
    as (m & Hm & Hall & s' & Hs' & Hattained).
  destruct (vertex_in_segment g v Hlen Hin) as (s & Hs & Hend).
  assert (Hzero : segmentDistance (latOf v) (lngOf v) s = 0).
  { unfold segmentDistance. destruct Hend as [<- | <-];
      [apply distanceToLineSegment_start | apply distanceToLineSegment_end]. }
  assert (Hm0 : m = 0).
  { apply Rle_antisym.
    - rewrite <- Hzero. apply Hall. exact Hs.
    - rewrite Hattained. apply distanceToLineSegment_nonneg. }
  rewrite Hm, Hm0. reflexivity.
Qed.

(** With the threshold of 50 m that the constructor sets, a traveler at a
    vertex of the route is not off the route. *)
Theorem vertex_is_on_route (position : Geolocation.Position) (v : Coord) (w : World) :
  offRouteThreshold w = 50 ->
  (2 <= List.length (routeGeometry w))%nat -> In v (routeGeometry w) ->
  Geolocation.latitude position = latOf v ->
  Geolocation.longitude position = lngOf v ->
  offRoute position w = false.
Proof.
  intros Hthreshold Hlen Hin Hlat Hlng. unfold offRoute.
  rewrite Hlat, Hlng, (distanceToRoute_vertex _ v Hlen Hin), Hthreshold.
  cbn. apply ltb_false. lra.
Qed.

Lemma vertex_is_on_route_example : offRoute (sample 0 0.01 5) started = false.
Proof.
  apply (vertex_is_on_route (sample 0 0.01 5) (0.01, 0) started).
  - rewrite started_eq. reflexivity.
  - rewrite started_eq. cbn. lia.
  - rewrite started_eq. right. left. reflexivity.
  - reflexivity.
  - reflexivity.
Defined.

(** A geometry without two vertices has no segment.  Without any vertex the
    distance to the route is zero and no position is off the route; with one
    vertex the running minimum stays [Infinity] and every position is off the
    route, wherever it is and whatever the threshold. *)
Theorem route_without_segment (position : Geolocation.Position) (v : Coord) (w : World) :
  (routeGeometry w = [] -> 0 <= offRouteThreshold w -> offRoute position w = false) /\
  (routeGeometry w = [v] -> offRoute position w = true).
Proof.
  unfold offRoute. split.
  - intros -> Hthreshold. cbn. apply ltb_false. exact Hthreshold.
  - intros ->. reflexivity.
Qed.

Lemma sum_of_lengths_grows (segs : list (Coord * Coord)) :
  forall (k : nat) (a : R),
    a <= fold_left (fun acc s => acc + segmentLength s) (firstn k segs) a /\
    fold_left (fun acc s => acc + segmentLength s) (firstn k segs) a <=
    fold_left (fun acc s => acc + segmentLength s) segs a.
Proof.
  assert (Hlen : forall s, 0 <= segmentLength s).
  { intros [point1 point2]. apply calculateDistance_nonneg. }
  assert (Hfrom : forall (l : list (Coord * Coord)) (a : R),
             a <= fold_left (fun acc s => acc + segmentLength s) l a).
  { induction l as [| s l IHl]; intros a; cbn; [lra |].
    eapply Rle_trans; [| apply IHl]. pose proof (Hlen s). lra. }
  induction segs as [| s segs IH]; intros k a.
  - rewrite firstn_nil. cbn. lra.
  - destruct k as [| k]; cbn [firstn fold_left].
    + split; [lra |]. eapply Rle_trans; [| apply Hfrom]. pose proof (Hlen s). lra.
    + destruct (IH k (a + segmentLength s)) as [Hlo Hhi].
      split; [pose proof (Hlen s); lra | exact Hhi].
Qed.

(** The distance along the route is never negative and never more than the
    length of the whole polyline; and at the first vertex of the polyline it
    is zero. *)
Theorem distance_along_route_is_within_the_route (lat lng : R) (g : list Coord) :
  0 <= calculateDistanceAlongRoute lat lng g <= lengthToVertex (List.length g) g /\
  (forall v rest,
     g = v :: rest -> calculateDistanceAlongRoute (latOf v) (lngOf v) g = 0).
Proof.
  split.
  - unfold calculateDistanceAlongRoute, lengthToVertex. cbv zeta.
    destruct (sum_of_lengths_grows (segments g)
                (closestLoop lat lng g 0 0 Infinity) 0) as [Hlo Hhi].
    destruct (sum_of_lengths_grows (firstn (List.length g) (segments g))
                (closestLoop lat lng g 0 0 Infinity) 0) as [_ Hhi'].
    split; [exact Hlo |].
    assert (Hall : firstn (List.length g) (segments g) = segments g).
    { apply firstn_all2. clear. induction g as [| p [| q rest] IH]; cbn in *; lia. }
    rewrite Hall. exact Hhi.
  - intros v rest ->. unfold calculateDistanceAlongRoute. cbv zeta.
    cbn [closestLoop lt_Num]. rewrite calculateDistance_same.
    destruct (closestLoop_spec (latOf v) (lngOf v) rest 1 0 0)
      as [[Hk _] | (j & vertex & _ & _ & Hlt & _)].
    + rewrite Hk. reflexivity.
    + pose proof (calculateDistance_nonneg (latOf v) (lngOf v) (latOf vertex) (lngOf vertex)).
      unfold vertexDistance in Hlt. lra.
Qed.

Lemma route_without_segment_example :
  offRoute (sample 0 0 5) initial = false /\
  offRoute (sample 0 0 5) (set_routeGeometry [(0, 0)] initial) = true.
Proof.
  split.
  - apply (proj1 (route_without_segment (sample 0 0 5) (0, 0) initial)).
    + reflexivity.
    + cbn. lra.
  - apply (proj2 (route_without_segment (sample 0 0 5) (0, 0)
                    (set_routeGeometry [(0, 0)] initial))).
    reflexivity.
Defined.

Lemma distance_along_route_is_within_the_route_example :
  calculateDistanceAlongRoute (latOf (0, 0)) (lngOf (0, 0)) road = 0.
Proof.
  apply (proj2 (distance_along_route_is_within_the_route 0 0 road) (0, 0) [(0.01, 0)]).
  reflexivity.
Defined.

(** ** Time ago *)

(** The text names the largest unit that has begun: nothing below a minute,
    then 1 to 59 minutes, then 1 to 23 hours, then the days; a date in the
    future reads as just now. *)
Theorem getTimeAgo_units (now date : Z) :
  ((now - date < 60000)%Z -> getTimeAgo now date = "Just now") /\
  ((60000 <= now - date < 3600000)%Z ->
   exists n, (1 <= n <= 59)%Z /\ getTimeAgo now date = integerText n ++ "m ago") /\
  ((3600000 <= now - date < 86400000)%Z ->
   exists n, (1 <= n <= 23)%Z /\ getTimeAgo now date = integerText n ++ "h ago") /\
  ((86400000 <= now - date)%Z ->
   exists n, (1 <= n)%Z /\ getTimeAgo now date = integerText n ++ "d ago").
Proof.
  unfold getTimeAgo. cbv zeta.
  set (diffMs := (now - date)%Z).
  repeat split.
  - intros Hsmall.
    destruct (Z.ltb_spec (diffMs / 60000) 1) as [_ | Hge]; [reflexivity |].
    exfalso. assert (diffMs / 60000 < 1)%Z; [| lia].
    apply Z.div_lt_upper_bound; lia.
  - intros [Hlo Hhi]. exists (diffMs / 60000)%Z.
    assert (1 <= diffMs / 60000)%Z by (apply Z.div_le_lower_bound; lia).
    assert (diffMs / 60000 < 60)%Z by (apply Z.div_lt_upper_bound; lia).
    split; [lia |].
    destruct (Z.ltb_spec (diffMs / 60000) 1); [lia |].
    destruct (Z.ltb_spec (diffMs / 60000) 60); [reflexivity | lia].
  - intros [Hlo Hhi]. exists (diffMs / 3600000)%Z.
    assert (60 <= diffMs / 60000)%Z by (apply Z.div_le_lower_bound; lia).
    assert (1 <= diffMs / 3600000)%Z by (apply Z.div_le_lower_bound; lia).
    assert (diffMs / 3600000 < 24)%Z by (apply Z.div_lt_upper_bound; lia).
    split; [lia |].
    destruct (Z.ltb_spec (diffMs / 60000) 1); [lia |].
    destruct (Z.ltb_spec (diffMs / 60000) 60); [lia |].
    destruct (Z.ltb_spec (diffMs / 3600000) 24); [reflexivity | lia].
  - intros Hlo. exists (diffMs / 86400000)%Z.
    assert (60 <= diffMs / 60000)%Z by (apply Z.div_le_lower_bound; lia).
    assert (24 <= diffMs / 3600000)%Z by (apply Z.div_le_lower_bound; lia).
    assert (1 <= diffMs / 86400000)%Z by (apply Z.div_le_lower_bound; lia).
    split; [lia |].
    destruct (Z.ltb_spec (diffMs / 60000) 1); [lia |].
    destruct (Z.ltb_spec (diffMs / 60000) 60); [lia |].
    destruct (Z.ltb_spec (diffMs / 3600000) 24); [lia | reflexivity].
Qed.

Lemma getTimeAgo_units_example :
  getTimeAgo 59999 0 = "Just now" /\
  (exists n, (1 <= n <= 59)%Z /\ getTimeAgo 3599999 0 = integerText n ++ "m ago") /\
  (exists n, (1 <= n <= 23)%Z /\ getTimeAgo 3600000 0 = integerText n ++ "h ago") /\
  (exists n, (1 <= n)%Z /\ getTimeAgo 86400000 0 = integerText n ++ "d ago").
Proof.
  split; [| split; [| split]].
  - apply (proj1 (getTimeAgo_units 59999 0)). lia.
  - apply (proj1 (proj2 (getTimeAgo_units 3599999 0))). lia.
  - apply (proj1 (proj2 (proj2 (getTimeAgo_units 3600000 0)))). lia.
  - apply (proj2 (proj2 (proj2 (getTimeAgo_units 86400000 0)))). lia.
Defined.

Example getTimeAgo_below_a_minute : getTimeAgo 59999 0 = "Just now".
Proof. vm_compute. reflexivity. Qed.

Example getTimeAgo_a_minute : getTimeAgo 60000 0 = "1m ago".
Proof. vm_compute. reflexivity. Qed.

Example getTimeAgo_a_day_less_a_millisecond : getTimeAgo 86399999 0 = "23h ago".
Proof. vm_compute. reflexivity. Qed.

Example getTimeAgo_two_days : getTimeAgo 172800000 0 = "2d ago".
Proof. vm_compute. reflexivity. Qed.

(** ** Weather alerts *)

(** Which alert is shown: the first of the array, so rain comes before a
    thunderstorm, a thunderstorm before snow, then poor visibility, strong
    wind, and the temperature last. *)
Theorem shown_weather_alert_follows_priority (weather : Weather.Report) :
  shownWeatherAlert weather =
    let id := Weather.id weather in
    if (500 <=? id)%Z && (id <? 600)%Z then
      Some (if match Weather.rain1h weather with
               | Some rain => gtb rain 7.6
               | None => false
               end
            then "Heavy rain expected - Drive carefully"
            else "Rainy conditions - Reduce speed")
    else if (200 <=? id)%Z && (id <? 300)%Z then
      Some "Thunderstorm warning - Consider delaying travel"
    else if (600 <=? id)%Z && (id <? 700)%Z then
      Some "Snow conditions - Road may be slippery"
    else if match Weather.visibility weather with
            | Some visibility => ltb visibility 1000
            | None => false
            end then
      Some "Poor visibility - Use fog lights"
    else if gtb (Weather.windSpeed weather) 10 then
      Some "Strong winds - Drive cautiously"
    else if gtb (Weather.temp weather) 40 then
      Some "Extreme heat - Stay hydrated"
    else if ltb (Weather.temp weather) 0 then
      Some "Freezing temperature - Watch for ice"
    else None.
Proof.
  unfold shownWeatherAlert, checkWeatherAlerts. cbv zeta.
  destruct ((500 <=? Weather.id weather)%Z && (Weather.id weather <? 600)%Z);
    [destruct (match Weather.rain1h weather with Some rain => gtb rain 7.6 | None => false end) |];
    destruct ((200 <=? Weather.id weather)%Z && (Weather.id weather <? 300)%Z);
    destruct ((600 <=? Weather.id weather)%Z && (Weather.id weather <? 700)%Z);
    destruct (match Weather.visibility weather with
              | Some visibility => ltb visibility 1000 | None => false end);
    destruct (gtb (Weather.windSpeed weather) 10);
    destruct (gtb (Weather.temp weather) 40);
    destruct (ltb (Weather.temp weather) 0); reflexivity.
Qed.

(** There are never more than four alerts: of rain, thunderstorm and snow at
    most one, and of heat and frost at most one. *)
Theorem weather_alerts_are_at_most_four (weather : Weather.Report) :
  (List.length (checkWeatherAlerts weather) <= 4)%nat.
Proof.
  unfold checkWeatherAlerts. cbv zeta.
  destruct (Z.leb_spec 500 (Weather.id weather));
    destruct (Z.ltb_spec (Weather.id weather) 600);
    destruct (Z.leb_spec 200 (Weather.id weather));
    destruct (Z.ltb_spec (Weather.id weather) 300);
    destruct (Z.leb_spec 600 (Weather.id weather));
    destruct (Z.ltb_spec (Weather.id weather) 700);
    try lia; cbn [andb];
    try destruct (match Weather.rain1h weather with Some rain => gtb rain 7.6 | None => false end);
    destruct (match Weather.visibility weather with
              | Some visibility => ltb visibility 1000 | None => false end);
    destruct (gtb (Weather.windSpeed weather) 10);
    destruct (gtb (Weather.temp weather) 40);
    destruct (ltb (Weather.temp weather) 0); cbn; lia.
Qed.

(** ** Keyboard navigation of the suggestions *)

Lemma navigateSuggestions_valid (direction : string) (itemCount index : Z) :
  (0 < itemCount)%Z -> (-1 <= index < itemCount)%Z ->
  exists index',
    navigateSuggestions direction itemCount index = Returns index' /\
    (0 <= index' < itemCount)%Z.
Proof.
  intros Hcount Hindex. unfold navigateSuggestions. cbv zeta.
  destruct (Z.eqb_spec itemCount 0); [lia |].
  destruct (Z.leb_spec 0 index); destruct (Z.ltb_spec index itemCount); try lia;
    cbn [andb negb];
    destruct (String.eqb direction "down").
  all: match goal with
       | |- context [Z.min ?a ?b] => exists (Z.min a b)
       | |- context [Z.max ?a ?b] => exists (Z.max a b)
       end.
  all: match goal with
       | |- context [(0 <=? ?x)%Z && (?x <? ?n)%Z] =>
           destruct (Z.leb_spec 0 x); destruct (Z.ltb_spec x n); try lia
       end.
  all: cbn [andb]; split; [reflexivity | lia].
Qed.

(** After the dropdown is shown (index -1), arrow keys on a list that is not
    empty never throw and leave the index on an item of the list, whatever the
    keys; on an empty list a key changes nothing. *)
Theorem suggestion_keys_keep_the_index_valid (directions : list string)
    (direction : string) (itemCount : Z) :
  (0 < itemCount)%Z ->
  (exists index,
     navigateSuggestionsAll (direction :: directions) itemCount (-1) = Returns index /\
     (0 <= index < itemCount)%Z) /\
  (forall index, navigateSuggestions direction 0 index = Returns index).
Proof.
  intros Hcount. split; [| reflexivity].
  assert (Hall : forall directions index,
             (-1 <= index < itemCount)%Z ->
             exists index',
               navigateSuggestionsAll directions itemCount index = Returns index' /\
               (-1 <= index' < itemCount)%Z /\
               (directions <> [] -> 0 <= index')%Z).
  { clear directions direction.
    induction directions as [| direction rest IH]; intros index Hindex.
    - exists index. split; [reflexivity |]. split; [exact Hindex | congruence].
    - destruct (navigateSuggestions_valid direction itemCount index Hcount Hindex)
        as (index1 & Hone & Hvalid).
      cbn [navigateSuggestionsAll]. rewrite Hone.
      destruct (IH index1) as (index2 & Hrest & Hvalid2 & Hnonneg); [lia |].
      exists index2. split; [exact Hrest |]. split; [exact Hvalid2 |].
      intros _. destruct rest as [| next rest'].
      + cbn in Hrest. injection Hrest as <-. lia.
      + apply Hnonneg. discriminate. }
  destruct (Hall (direction :: directions) (-1)%Z) as (index & Hrun & Hvalid & Hnonneg);
    [lia |].
  exists index. split; [exact Hrun |].
  specialize (Hnonneg ltac:(discriminate)). lia.
Qed.

Lemma suggestion_keys_keep_the_index_valid_example :
  (exists index,
     navigateSuggestionsAll ("down" :: ["down"; "down"; "up"]) 2 (-1) = Returns index /\
     (0 <= index < 2)%Z) /\
  (forall index, navigateSuggestions "down" 0 index = Returns index).
Proof.
  apply (suggestion_keys_keep_the_index_valid ["down"; "down"; "up"] "down" 2). lia.
Defined.
